(** * gitlab-board: the dashboard front end (static/app.js)

    A shallow embedding of the client script of the GitLab issue and commit
    dashboard, and the properties of its state handling that the
    specification states.

    Conventions of the embedding.
    - JavaScript strings are [string]s, read as sequences of code units
      below 256; the default [Array.prototype.sort] order is the
      lexicographic order on code units, [String.le].  The texts of the
      toasts are written as their UTF-8 bytes; they are only compared.
    - A plain object used as a dictionary is a finite map on its own
      properties ([gmap], or an insertion-ordered association list where
      [Object.entries] makes the order visible), together with the members
      it inherits from [Object.prototype] ([Js.prototype_names]): a read
      [o[k]] or a test [k in o] sees them.  A write through an inherited
      member lands on a built-in object of the page; the embedding does not
      follow the page from there ([group_row] gives [None]), and the
      replies of [/api/commit-stats] that the handlers are run on are
      those whose rows cause no such write ([KeyedStats]).
    - The rows of the issue table are built by assigning markup to
      [tr.innerHTML] with the fields of the issue written into it as they
      are.  What the HTML parser makes of the text of the fields is a
      parameter of the embedding, [field_boxes]: the checkboxes it adds to
      the row, after the checkbox of the row itself.  Markup in a field
      can also carry a script in an event-handler attribute; such a script
      is no code of the page, and what it does is outside the embedding.
    - The module-level [state] object and the part of the document the
      script reads and writes are threaded through a state monad [M]; the
      toasts and the requests sent with [fetch] are appended to a log.
    - An [async] handler receives the outcome of each [fetch] it awaits as
      an argument: [Ok data] when [res.ok] holds and the body parses to
      [data], [NotOk] otherwise.  A rejected promise aborts the handler and
      is outside the model.
    - The handlers [saveConfig], [loadConfig] and [saveIssueFields], which
      neither read nor write [state], are not embedded; in a run of the
      page they only add toasts and requests to the log.

    The embedding follows static/app.js.  The repository holds an earlier
    revision of the script as well, without the assignee quick filter; its
    fetch, refresh, bulk-close and commit-statistics code is the same. *)

From stdpp Require Import base strings list gmap sorting relations pretty.
From Stdlib Require Import ZArith Ascii.

Local Open Scope string_scope.
Local Open Scope list_scope.
Local Open Scope Z_scope.

(** ** JavaScript values *)

Module Js.

(** [Boolean(s)] of a string: only the empty string is falsy. *)
Definition truthy (s : string) : bool :=
  match s with "" => false | _ => true end.

(** [Boolean(v)] of a value that is [null]/[undefined] or a string. *)
Definition truthy_opt (v : option string) : bool :=
  match v with Some s => truthy s | None => false end.

(** [a || b] where [a] is [null]/[undefined] or a string. *)
Definition or_else (a : option string) (b : string) : string :=
  match a with
  | Some s => if truthy s then s else b
  | None => b
  end.

(** [c || 0] on numbers: the only falsy integer is [0]. *)
Definition or_zero (c : option Z) : Z :=
  match c with
  | Some n => if decide (n = 0) then 0 else n
  | None => 0
  end.

(** White space removed by [String.prototype.trim], among the code units
    below 256: tab to carriage return, space and no-break space. *)
Definition is_white_space (c : Ascii.ascii) : bool :=
  let n := Ascii.N_of_ascii c in
  ((9 <=? n) && (n <=? 13) || (n =? 32) || (n =? 160))%N.

Fixpoint trim_start (s : string) : string :=
  match s with
  | String c s' => if is_white_space c then trim_start s' else s
  | "" => ""
  end.

Definition trim (s : string) : string :=
  String.rev (trim_start (String.rev (trim_start s))).

(** [s.split(sep)] for a one-character separator; [("").split(sep)] is
    the one-element array holding the empty string. *)
Fixpoint split (sep : Ascii.ascii) (s : string) : list string :=
  match s with
  | "" => [""]
  | String c s' =>
      if decide (c = sep) then "" :: split sep s'
      else match split sep s' with
           | w :: ws => String c w :: ws
           | [] => [String c ""]
           end
  end.

(** [Array.from(new Set(xs))]: the distinct elements in the order of
    their first occurrence. *)
Definition Set_from `{EqDecision A} (xs : list A) : list A :=
  foldl (λ (seen : list A) x, if decide (x ∈ seen) then seen else seen ++ [x]) [] xs.

(** [xs.sort()] on strings, without a comparator. *)
Definition sort (xs : list string) : list string := merge_sort String.le xs.

(** The value [Number(s)] of a piece of text, kept symbolic. *)
Inductive num := Number (s : string).

(** The text a template literal gives for an integer: its decimal
    numeral. *)
Definition ToString (n : Z) : string := pretty n.

Global Instance num_eq_dec : EqDecision num.
Proof. solve_decision. Defined.

(** *** Plain objects whose key order is observed *)

(** The own properties in creation order. *)
Definition obj (V : Type) := list (string * V).

(** [o[k]], [undefined] being [None]. *)
Fixpoint get {V} (o : obj V) (k : string) : option V :=
  match o with
  | [] => None
  | (k', v) :: o' => if decide (k' = k) then Some v else get o' k
  end.

(** [o[k] = v]: overwrite in place, or create the property at the end. *)
Fixpoint set {V} (o : obj V) (k : string) (v : V) : obj V :=
  match o with
  | [] => [(k, v)]
  | (k', v') :: o' => if decide (k' = k) then (k, v) :: o' else (k', v') :: set o' k v
  end.

(** The members a plain object inherits from [Object.prototype].  Each
    of them is truthy: a function, or for [__proto__] the prototype. *)
Definition prototype_names : list string :=
  ["constructor"; "__defineGetter__"; "__defineSetter__"; "hasOwnProperty";
   "__lookupGetter__"; "__lookupSetter__"; "isPrototypeOf";
   "propertyIsEnumerable"; "toString"; "valueOf"; "__proto__";
   "toLocaleString"].

Definition inherited (k : string) : bool := bool_decide (k ∈ prototype_names).

(** [k in o], for a plain object [o]: an own property or an inherited
    member.  The same [k] are those for which [o[k]] is truthy when the
    own properties of [o] hold objects. *)
Definition has {V} (o : obj V) (k : string) : bool :=
  bool_decide (is_Some (get o k)) || inherited k.

Fixpoint digits_value (acc : N) (s : string) : option N :=
  match s with
  | "" => Some acc
  | String c s' =>
      let n := Ascii.N_of_ascii c in
      if ((48 <=? n) && (n <=? 57))%N
      then digits_value (10 * acc + (n - 48))%N s'
      else None
  end.

(** The array index a property name denotes, if any: a canonical decimal
    numeral below [2^32 - 1]. *)
Definition array_index (k : string) : option N :=
  match k with
  | "" => None
  | String "0"%char "" => Some 0%N
  | String "0"%char _ => None
  | _ => n ← digits_value 0 k; if (n <? 4294967295)%N then Some n else None
  end.

Definition index_le {V} (p q : string * V) : Prop :=
  (default 0 (array_index p.1) ≤ default 0 (array_index q.1))%N.

Global Instance index_le_dec {V} : RelDecision (@index_le V).
Proof. intros p q. unfold index_le. apply _. Defined.

(** [Object.entries(o)]: array-index names in ascending numeric order,
    then the other names in creation order. *)
Definition entries {V} (o : obj V) : list (string * V) :=
  merge_sort index_le (filter (λ kv, is_Some (array_index kv.1)) o)
  ++ filter (λ kv, ¬ is_Some (array_index kv.1)) o.

End Js.

(** ** Data model *)

(** A row of [data.stats]. *)
Module Stat.
Record t := mk { author : string; week : string; commits : Z }.

Global Instance stat_eq_dec : EqDecision t.
Proof. solve_decision. Defined.
End Stat.

(** A line of the commit chart: one element of [datasets]. *)
Module Dataset.
Record t := mk { label : string; data : list Z; borderColor : string }.
End Dataset.

(** The [data] member of the configuration given to [new Chart]. *)
Record ChartData := { labels : list string; datasets : list Dataset.t }.

(** ** The commit bucketizer: [renderCommitChart] *)

Definition palette : list string :=
  ["#5b63ff"; "#50a5f1"; "#7c8cff"; "#ff8fa3"; "#3ecf8e"; "#f6c344"].

(** The guard of the [stats.forEach] callback,
    [if (!grouped[row.author]) grouped[row.author] = {}].  The read
    [grouped[row.author]] is truthy for an entry of [grouped] and for a
    member inherited from [Object.prototype] alike. *)
Definition group_entry (grouped : Js.obj (gmap string Stat.t)) (author : string)
    : Js.obj (gmap string Stat.t) :=
  if Js.has grouped author then grouped else Js.set grouped author ∅.

(** The body of the callback: the guard, then
    [grouped[row.author][row.week] = row].  When [grouped[row.author]] is
    an inherited member, the row is written onto that built-in object of
    the page, which the embedding does not follow: [None].  The entry of an
    author is a dictionary from weeks to rows (for the week [__proto__] the
    assignment sets the prototype of the entry and the read in
    [dataset_of] returns it: the same row). *)
Definition group_row (grouped : Js.obj (gmap string Stat.t)) (row : Stat.t)
    : option (Js.obj (gmap string Stat.t)) :=
  let grouped := group_entry grouped (Stat.author row) in
  match Js.get grouped (Stat.author row) with
  | Some values =>
      Some (Js.set grouped (Stat.author row) (<[Stat.week row := row]> values))
  | None => None
  end.

Definition group_stats (stats : list Stat.t)
    : option (Js.obj (gmap string Stat.t)) :=
  foldl (λ grouped row, grouped ≫= λ g, group_row g row) (Some []) stats.

Definition weeks_of (stats : list Stat.t) : list string :=
  Js.sort (Js.Set_from (Stat.week <$> stats)).

(** [values[w]?.commits || 0].  For a week [w] the entry holds no row of,
    [values[w]] is [undefined], a member inherited from [Object.prototype]
    or, when the prototype of the entry is a row, the author, the week or
    the commit count of that row: none of them has a member [commits], and
    the value is 0. *)
Definition dataset_of (weeks : list string) (idx : nat)
    (entry : string * gmap string Stat.t) : Dataset.t :=
  let color := default "" (palette !! (idx `mod` length palette)%nat) in
  {| Dataset.label := entry.1;
     Dataset.data := (λ w, Js.or_zero (Stat.commits <$> entry.2 !! w)) <$> weeks;
     Dataset.borderColor := color |}.

(** What [renderCommitChart] computes from [stats] and hands to
    [new Chart]; [None] when a row leaves the dictionaries. *)
Definition commit_chart_data (stats : list Stat.t) : option ChartData :=
  grouped ← group_stats stats;
  let weeks := weeks_of stats in
  Some {| labels := weeks;
          datasets := imap (dataset_of weeks) (Js.entries grouped) |}.

(** Rows all of whose authors can be keys of [grouped]. *)
Definition keyed (stats : list Stat.t) : bool :=
  forallb (λ row, negb (Js.inherited (Stat.author row))) stats.

(** The rows of a reply that [renderCommitChart] is embedded for. *)
Record KeyedStats := { rows : list Stat.t; rows_keyed : Is_true (keyed rows) }.

(** An element of [data.issues]; [null] and missing members are [None].
    The members [id], [project_id] and [iid] are the integers GitLab
    numbers issues and projects with. *)
Module Issue.
Record t := mk {
  id : Z;
  project_id : Z;
  iid : Z;
  title : string;
  author : option string;
  assignee : option string;
  labels : list string;
  state : string;
  category : option string;
  note : option string;
  web_url : string;
}.

Global Instance issue_eq_dec : EqDecision t.
Proof. solve_decision. Defined.
End Issue.

(** The body of a successful [/api/issues] or [/api/issues/refresh] reply. *)
Module Data.
Record t := mk {
  issues : list Issue.t;
  assignee_summary : Js.obj Z;
}.
End Data.

(** An element of the [/api/repos] reply. *)
Record Repo := { repo_name : string; repo_id : Z }.

(** The bar chart of open issues per assignee held in [state.assigneeChart]. *)
Record BarChart := { bar_labels : list string; bar_data : list Z }.

(** The module-level [state] object. *)
Record State := {
  projectIds : list Js.num;
  issues : list Issue.t;
  assigneeSummary : Js.obj Z;
  chart : option ChartData;
  assigneeChart : option BarChart;
  selectedAssignee : option string;
}.

Global Instance State_eq_dec : EqDecision State.
Proof.
  assert (EqDecision Dataset.t) by solve_decision.
  assert (EqDecision ChartData) by solve_decision.
  assert (EqDecision BarChart) by solve_decision.
  solve_decision.
Defined.

(** A checkbox of the issue table: [Number] of its [data-id] attribute,
    and whether it is checked. *)
Record Box := { box_id : Js.num; box_checked : bool }.

(** A row of [#issue-table tbody]: the record it was rendered from and its
    checkboxes in document order.  The markup of the page is not among the
    sources; the checkboxes of [#issue-table] are taken to be those of its
    rows. *)
Record Row := { row_issue : Issue.t; row_boxes : list Box }.

(** The part of the document the handlers read or write.  The fields are
    named after the element ids: the text inputs hold their [value], the
    table body its rows, [select_all] the [checked] flag of [#select-all]. *)
Record Dom := {
  project_ids : string;
  search_text : string;
  search_author : string;
  search_assignee : string;
  search_label : string;
  search_category : string;
  search_note : string;
  issue_table : list Row;
  select_all : bool;
}.

(** ** Requests and toasts *)

Inductive pvalue :=
  | Joined (ids : list Js.num)      (* [projectIds.join(',')] *)
  | Single (id : Js.num)            (* one id, appended as it is *)
  | Text (s : string).

(** A [URLSearchParams] object: its entries in order. *)
Definition URLSearchParams := list (string * pvalue).

Definition params_append (p : URLSearchParams) (k : string) (v : pvalue)
    : URLSearchParams := p ++ [(k, v)].

(** [p.set(k, v)]: replace the first entry named [k] and drop the others,
    or append. *)
Fixpoint params_set (p : URLSearchParams) (k : string) (v : pvalue)
    : URLSearchParams :=
  match p with
  | [] => [(k, v)]
  | (k', v') :: p' =>
      if decide (k' = k) then (k, v) :: filter (λ e, e.1 ≠ k) p'
      else (k', v') :: params_set p' k v
  end.

Inductive Body :=
  | NoBody
  | RefreshBody (project_ids : list Js.num) (fetch_newer_only : bool)
  | BulkCloseBody (issue_ids : list Js.num).

Record Request := {
  method : string;
  url : string;
  query : URLSearchParams;
  body : Body;
}.

Inductive Event :=
  | Toast (message : string)
  | Fetch (req : Request).

(** What an awaited [fetch] resolves to: [res.ok] with the parsed body, or
    a reply that is not ok. *)
Inductive Response (A : Type) :=
  | Ok (data : A)
  | NotOk.
Arguments Ok {A} data.
Arguments NotOk {A}.

(** ** The state monad of the handlers *)

Record World := { state : State; document : Dom; log : list Event }.

Definition M (A : Type) : Type := World → A * World.

Global Instance M_ret : MRet M := λ A x w, (x, w).
Global Instance M_bind : MBind M :=
  λ A B f m w, let '(x, w') := m w in f x w'.

(** The world a handler leaves behind. *)
Definition exec {A} (m : M A) (w : World) : World := (m w).2.

Definition get_state : M State := λ w, (state w, w).
Definition modify_state (f : State → State) : M unit :=
  λ w, (tt, {| state := f (state w); document := document w; log := log w |}).
Definition get_document : M Dom := λ w, (document w, w).
Definition modify_document (f : Dom → Dom) : M unit :=
  λ w, (tt, {| state := state w; document := f (document w); log := log w |}).
Definition emit (e : Event) : M unit :=
  λ w, (tt, {| state := state w; document := document w; log := log w ++ [e] |}).

Definition toast (message : string) : M unit := emit (Toast message).

(** [await fetch(...)]: the request leaves, the reply [res] comes back. *)
Definition fetch {A} (req : Request) (res : Response A) : M (Response A) :=
  emit (Fetch req);; mret res.

Definition set_projectIds (v : list Js.num) (s : State) : State :=
  {| projectIds := v; issues := issues s; assigneeSummary := assigneeSummary s;
     chart := chart s; assigneeChart := assigneeChart s;
     selectedAssignee := selectedAssignee s |}.
Definition set_issues (v : list Issue.t) (s : State) : State :=
  {| projectIds := projectIds s; issues := v; assigneeSummary := assigneeSummary s;
     chart := chart s; assigneeChart := assigneeChart s;
     selectedAssignee := selectedAssignee s |}.
Definition set_assigneeSummary (v : Js.obj Z) (s : State) : State :=
  {| projectIds := projectIds s; issues := issues s; assigneeSummary := v;
     chart := chart s; assigneeChart := assigneeChart s;
     selectedAssignee := selectedAssignee s |}.
Definition set_chart (v : option ChartData) (s : State) : State :=
  {| projectIds := projectIds s; issues := issues s; assigneeSummary := assigneeSummary s;
     chart := v; assigneeChart := assigneeChart s;
     selectedAssignee := selectedAssignee s |}.
Definition set_assigneeChart (v : option BarChart) (s : State) : State :=
  {| projectIds := projectIds s; issues := issues s; assigneeSummary := assigneeSummary s;
     chart := chart s; assigneeChart := v;
     selectedAssignee := selectedAssignee s |}.
Definition set_selectedAssignee (v : option string) (s : State) : State :=
  {| projectIds := projectIds s; issues := issues s; assigneeSummary := assigneeSummary s;
     chart := chart s; assigneeChart := assigneeChart s;
     selectedAssignee := v |}.

Definition set_issue_table (rows : list Row) (d : Dom) : Dom :=
  {| project_ids := project_ids d; search_text := search_text d;
     search_author := search_author d; search_assignee := search_assignee d;
     search_label := search_label d; search_category := search_category d;
     search_note := search_note d; issue_table := rows; select_all := select_all d |}.
Definition set_select_all (b : bool) (d : Dom) : Dom :=
  {| project_ids := project_ids d; search_text := search_text d;
     search_author := search_author d; search_assignee := search_assignee d;
     search_label := search_label d; search_category := search_category d;
     search_note := search_note d; issue_table := issue_table d; select_all := b |}.

(** A parser for issues whose fields hold no markup: no box is added. *)
Definition no_markup (issue : Issue.t) : list Box := [].

(** The title of an issue that holds the markup of a checked checkbox. *)
Definition box_title : string := "<input type=checkbox checked data-id=99>".

(** A parser that finds the checked box in that title, as every browser
    does, and nothing elsewhere. *)
Definition title_markup (issue : Issue.t) : list Box :=
  if bool_decide (Issue.title issue = box_title)
  then [{| box_id := Js.Number "99"; box_checked := true |}] else [].

Ltac run :=
  unfold exec, mbind, M_bind, mret, M_ret, get_state, get_document,
    modify_state, modify_document, toast, emit; simpl.

Section page.

(** The checkboxes that the HTML parser adds to the row of an issue when
    it reads the text of its fields ([title], [author], [assignee],
    [labels], [state], [category], [note], [web_url]) as markup. *)
Variable field_boxes : Issue.t → list Box.

(** ** The handlers

    Writes that only change what is displayed (the texts of [#repo-list],
    [#open-issue-count], [#assignee-summary] and [#assignee-filter-label],
    the cells of a row other than its checkbox, the styling options of the
    charts) are left out: no handler reads them back. *)

(** The list [getProjectIds] reads off the [#project-ids] input. *)
Definition project_id_list (d : Dom) : list Js.num :=
  Js.Number <$> filter (λ v, Js.truthy v) (Js.trim <$> Js.split "," (project_ids d)).

Definition getProjectIds : M (list Js.num) :=
  d ← get_document;
  modify_state (set_projectIds (project_id_list d));;
  s ← get_state;
  mret (projectIds s).

(** The ids sent by the bulk close: the [data-id] of every checked box of
    the issue table. *)
Definition checked_ids (d : Dom) : list Js.num :=
  box_id <$> filter (λ b, box_checked b) (issue_table d ≫= row_boxes).

(** The row [renderIssues] builds for an issue: its own box, unchecked,
    with the id of the issue as [data-id], and what the fields add. *)
Definition render_row (issue : Issue.t) : Row :=
  {| row_issue := issue;
     row_boxes := {| box_id := Js.Number (Js.ToString (Issue.id issue));
                     box_checked := false |} :: field_boxes issue |}.

(** The rows [renderIssues] shows: all of [state.issues], or those of the
    selected assignee. *)
Definition filteredIssues (s : State) : list Issue.t :=
  if Js.truthy_opt (selectedAssignee s)
  then filter (λ issue, Some (Js.or_else (Issue.assignee issue) "Unassigned")
                        = selectedAssignee s) (issues s)
  else issues s.

Definition renderIssues : M unit :=
  s ← get_state;
  modify_document (set_issue_table (render_row <$> filteredIssues s));;
  modify_document (set_select_all false).

Definition renderAssigneeChart : M unit :=
  s ← get_state;
  let labels := (Js.entries (assigneeSummary s)).*1 in
  let data := (λ name, default 0 (Js.get (assigneeSummary s) name)) <$> labels in
  (if assigneeChart s is Some _ then modify_state (set_assigneeChart None) else mret ());;
  if bool_decide (length labels = 0%nat) then mret ()
  else modify_state (set_assigneeChart (Some {| bar_labels := labels; bar_data := data |})).

Definition renderDashboard : M unit :=
  s ← get_state;
  match selectedAssignee s with
  | Some name =>
      if Js.truthy name && negb (Js.has (assigneeSummary s) name)
      then modify_state (set_selectedAssignee None)
      else mret ()
  | None => mret ()
  end;;
  renderAssigneeChart.

(** The first statement of [toggleAssigneeFilter]. *)
Definition select_assignee (name : option string) : M unit :=
  s ← get_state;
  modify_state (set_selectedAssignee
    (if bool_decide (selectedAssignee s = name) || negb (Js.truthy_opt name)
     then None else name)).

Definition toggleAssigneeFilter (name : option string) : M unit :=
  select_assignee name;;
  renderDashboard;;
  renderIssues.

Definition set_if_truthy (k v : string) (p : URLSearchParams) : URLSearchParams :=
  if Js.truthy v then params_set p k (Text v) else p.

Definition buildQueryParams : M URLSearchParams :=
  projectIds ← getProjectIds;
  d ← get_document;
  let params := params_set [] "project_ids" (Joined projectIds) in
  let q := Js.trim (search_text d) in
  let author := Js.trim (search_author d) in
  let assignee := Js.trim (search_assignee d) in
  let label := Js.trim (search_label d) in
  let category := Js.trim (search_category d) in
  let note := Js.trim (search_note d) in
  mret (set_if_truthy "note" note
       (set_if_truthy "category" category
       (set_if_truthy "label" label
       (set_if_truthy "assignee" assignee
       (set_if_truthy "author" author
       (set_if_truthy "query" q params)))))).

(** The two assignments after [await res.json()] in [fetchIssues] and
    [refreshIssues]. *)
Definition store_reply (data : Data.t) : M unit :=
  modify_state (set_issues (Data.issues data));;
  modify_state (set_assigneeSummary (Data.assignee_summary data)).

Definition syncRepos (reply : Response (list Repo)) : M unit :=
  projectIds ← getProjectIds;
  if bool_decide (length projectIds = 0%nat) then toast "프로젝트 ID를 입력하세요"
  else
    let params := foldl (λ p id, params_append p "project_ids" (Single id)) [] projectIds in
    res ← fetch {| method := "POST"; url := "/api/repos"; query := params;
                   body := NoBody |} reply;
    match res with
    | NotOk => toast "레포지토리 동기화 실패"
    | Ok repos => mret ()
    end.

Definition fetchIssues (applyFilter : bool) (reply : Response Data.t) : M unit :=
  projectIds ← getProjectIds;
  if bool_decide (length projectIds = 0%nat) then toast "프로젝트 ID를 입력하세요"
  else
    params ← (if applyFilter then buildQueryParams
              else mret [("project_ids", Joined projectIds)]);
    res ← fetch {| method := "GET"; url := "/api/issues"; query := params;
                   body := NoBody |} reply;
    match res with
    | NotOk => toast "이슈 조회 실패"
    | Ok data =>
        store_reply data;;
        renderIssues;;
        renderDashboard
    end.

Definition refreshIssues (reply : Response Data.t) : M unit :=
  projectIds ← getProjectIds;
  if bool_decide (length projectIds = 0%nat) then toast "프로젝트 ID를 입력하세요"
  else
    res ← fetch {| method := "POST"; url := "/api/issues/refresh"; query := [];
                   body := RefreshBody projectIds true |} reply;
    match res with
    | NotOk => toast "새 이슈를 불러오지 못했습니다"
    | Ok data =>
        store_reply data;;
        renderIssues;;
        renderDashboard
    end.

(** [reply] answers the bulk close; [refetch] answers the [fetchIssues(true)]
    started after a successful close. *)
Definition closeSelectedIssues (reply : Response ()) (refetch : Response Data.t)
    : M unit :=
  d ← get_document;
  let checked := checked_ids d in
  if bool_decide (length checked = 0%nat) then toast "선택된 이슈가 없습니다"
  else
    res ← fetch {| method := "POST"; url := "/api/issues/bulk-close"; query := [];
                   body := BulkCloseBody checked |} reply;
    match res with
    | Ok _ =>
        toast "선택한 이슈를 닫았습니다";;
        fetchIssues true refetch
    | NotOk => toast "이슈 close 실패"
    end.

(** The chart of rows that stay in the dictionaries. *)
Definition chart_of (stats : KeyedStats) : ChartData :=
  default {| labels := []; datasets := [] |} (commit_chart_data (rows stats)).

Definition renderCommitChart (stats : KeyedStats) : M unit :=
  modify_state (set_chart (Some (chart_of stats))).

Definition loadCommitStats (reply : Response KeyedStats) : M unit :=
  projectIds ← getProjectIds;
  if bool_decide (length projectIds = 0%nat) then mret ()
  else
    res ← fetch {| method := "GET"; url := "/api/commit-stats";
                   query := [("project_ids", Joined projectIds)];
                   body := NoBody |} reply;
    match res with
    | NotOk => toast "커밋 통계를 가져오지 못했습니다"
    | Ok stats => renderCommitChart stats
    end.

(** ** Runs of the page *)

Definition initial_state : State :=
  {| projectIds := []; issues := []; assigneeSummary := [];
     chart := None; assigneeChart := None; selectedAssignee := None |}.

(** Between two handlers the user may type into the inputs and tick or
    untick boxes (the [#select-all] handler ticks or unticks them all); the
    rows themselves only change when the table is rendered. *)
Definition user_edit (d d' : Dom) : Prop :=
  (λ r, (row_issue r, box_id <$> row_boxes r)) <$> issue_table d'
  = (λ r, (row_issue r, box_id <$> row_boxes r)) <$> issue_table d.

(** One step of a run.  The handlers bound by [bindEvents] are sequences
    of these steps (see [handlers_run]); the relation lets them come in any
    order, so it covers every interleaving of the asynchronous handlers. *)
Inductive step : World → World → Prop :=
  | step_edit w d' :
      user_edit (document w) d' →
      step w {| state := state w; document := d'; log := log w |}
  | step_emit w e : step w (exec (emit e) w)
  | step_project_ids w : step w (exec getProjectIds w)
  | step_select w name : step w (exec (select_assignee name) w)
  | step_reply w data : step w (exec (store_reply data) w)
  | step_chart w stats : step w (exec (renderCommitChart stats) w)
  | step_dashboard w : step w (exec renderDashboard w)
  | step_issues w : step w (exec renderIssues w).

(** The worlds a run of the page goes through: the script ends with
    [renderDashboard()] on the initial state and an empty table. *)
Definition reachable (w : World) : Prop :=
  ∃ d, issue_table d = [] ∧
       rtc step (exec renderDashboard
                   {| state := initial_state; document := d; log := [] |}) w.

(** ** The reconciler of the specification *)

(** [mergeIncremental] as the specification words it, for comparison with
    [refreshIssues]: an incoming record whose [id] is cached replaces the
    cached entry in place except for [category] and [note]; any other
    incoming record is appended. *)
Definition keep_annotations (cached incoming : Issue.t) : Issue.t :=
  {| Issue.id := Issue.id incoming; Issue.project_id := Issue.project_id incoming;
     Issue.iid := Issue.iid incoming; Issue.title := Issue.title incoming;
     Issue.author := Issue.author incoming; Issue.assignee := Issue.assignee incoming;
     Issue.labels := Issue.labels incoming; Issue.state := Issue.state incoming;
     Issue.category := Issue.category cached; Issue.note := Issue.note cached;
     Issue.web_url := Issue.web_url incoming |}.

Fixpoint merge_record (cache : list Issue.t) (incoming : Issue.t) : list Issue.t :=
  match cache with
  | [] => [incoming]
  | cached :: cache' =>
      if decide (Issue.id cached = Issue.id incoming)
      then keep_annotations cached incoming :: cache'
      else cached :: merge_record cache' incoming
  end.

Definition spec_mergeIncremental (cache records : list Issue.t) : list Issue.t :=
  foldl merge_record cache records.

(** ** Vocabulary of the statements *)

(** The last row of [stats] for an author and a week. *)
Definition last_row (stats : list Stat.t) (a w : string) : option Stat.t :=
  last (filter (λ r, Stat.author r = a ∧ Stat.week r = w) stats).

(** The selected assignee is not the empty name. *)
Definition selected_ok (s : State) : Prop := selectedAssignee s ≠ Some "".

(** The [data-id] of the checked boxes that the fields of the issues [l]
    add to their rows. *)
Definition markup_checked (l : list Issue.t) : list Js.num :=
  box_id <$> filter (λ b, box_checked b) (l ≫= field_boxes).

(** No box of the table is checked and [#select-all] is unchecked. *)
Definition no_selection (d : Dom) : Prop :=
  checked_ids d = [] ∧ select_all d = false.

Definition with_log (w : World) (events : list Event) : World :=
  {| state := state w; document := document w; log := log w ++ events |}.

Definition the_bulk_close (d : Dom) : Request :=
  {| method := "POST"; url := "/api/issues/bulk-close"; query := [];
     body := BulkCloseBody (checked_ids d) |}.

(** What a successful [/api/issues] or [/api/issues/refresh] reply leads
    to: the four statements after [await res.json()]. *)
Definition install (data : Data.t) : M unit :=
  store_reply data;;
  renderIssues;;
  renderDashboard.

(** A handler all of whose effects are steps of a run. *)
Definition runs {A} (m : M A) : Prop := ∀ w, rtc step w (exec m w).

(** ** Sample inputs *)

Definition blank_page (ids : string) : Dom :=
  {| project_ids := ids; search_text := ""; search_author := "";
     search_assignee := ""; search_label := ""; search_category := "";
     search_note := ""; issue_table := []; select_all := false |}.

Definition annotated : Issue.t :=
  {| Issue.id := 1; Issue.project_id := 10; Issue.iid := 4;
     Issue.title := "Crash on start"; Issue.author := Some "kim";
     Issue.assignee := Some "lee"; Issue.labels := ["backend"];
     Issue.state := "opened"; Issue.category := Some "bug";
     Issue.note := Some "x"; Issue.web_url := "https://gitlab.example/10/4" |}.

(** The same issue as the server sends it, with empty annotations. *)
Definition upstream : Issue.t :=
  {| Issue.id := 1; Issue.project_id := 10; Issue.iid := 4;
     Issue.title := "Crash on start"; Issue.author := Some "kim";
     Issue.assignee := Some "lee"; Issue.labels := ["backend"];
     Issue.state := "opened"; Issue.category := Some "";
     Issue.note := Some ""; Issue.web_url := "https://gitlab.example/10/4" |}.

Definition loaded_page : World :=
  {| state := set_issues [annotated] initial_state;
     document := set_issue_table
                   [{| row_issue := annotated;
                       row_boxes := [{| box_id := Js.Number "1";
                                        box_checked := true |}] |}]
                   (blank_page "10");
     log := [] |}.

Definition unassigned_empty : Issue.t :=
  {| Issue.id := 2; Issue.project_id := 10; Issue.iid := 5;
     Issue.title := "Typo in the manual"; Issue.author := Some "kim";
     Issue.assignee := Some ""; Issue.labels := [];
     Issue.state := "opened"; Issue.category := None;
     Issue.note := None; Issue.web_url := "https://gitlab.example/10/5" |}.

Definition filtered_by_unassigned : State :=
  set_selectedAssignee (Some "Unassigned")
    (set_issues [unassigned_empty] initial_state).

Definition filtered_by_lee : State :=
  set_selectedAssignee (Some "lee")
    (set_issues [unassigned_empty; annotated] initial_state).

Definition summary_with_lee : Data.t :=
  {| Data.issues := [annotated]; Data.assignee_summary := [("lee", 1)] |}.

Definition summary_without_lee : Data.t :=
  {| Data.issues := []; Data.assignee_summary := [] |}.

Definition first_visit : World :=
  {| state := initial_state; document := blank_page "10"; log := [] |}.

Definition nothing_entered : World :=
  {| state := initial_state; document := blank_page " , "; log := [] |}.

(** A reply that no longer lists the selected assignee has been stored and
    the dashboard is about to be rendered. *)
Definition stale_selection : World :=
  exec (store_reply summary_without_lee)
    (exec (toggleAssigneeFilter (Some "lee"))
       (exec (fetchIssues false (Ok summary_with_lee))
          (exec renderDashboard
             {| state := initial_state; document := blank_page "10"; log := [] |}))).

(** An issue assigned to a user whose name is also the name of a member
    of [Object.prototype], and a reply that lists it. *)
Definition held_by_constructor : Issue.t :=
  {| Issue.id := 3; Issue.project_id := 10; Issue.iid := 6;
     Issue.title := "Update the docs"; Issue.author := Some "kim";
     Issue.assignee := Some "constructor"; Issue.labels := [];
     Issue.state := "opened"; Issue.category := None; Issue.note := None;
     Issue.web_url := "https://gitlab.example/10/6" |}.

Definition summary_with_constructor : Data.t :=
  {| Data.issues := [held_by_constructor];
     Data.assignee_summary := [("constructor", 1)] |}.

(** The bar of that user has been clicked, and a later reply that lists
    only "lee" has been stored: the dashboard is about to be rendered. *)
Definition inherited_selection : World :=
  exec (store_reply summary_with_lee)
    (exec (toggleAssigneeFilter (Some "constructor"))
       (exec (fetchIssues false (Ok summary_with_constructor))
          (exec renderDashboard
             {| state := initial_state; document := blank_page "10"; log := [] |}))).

(** An issue whose title holds the markup of a checked checkbox, and a
    reply that brings it. *)
Definition ticked_title : Issue.t :=
  {| Issue.id := 2; Issue.project_id := 10; Issue.iid := 5;
     Issue.title := box_title; Issue.author := Some "kim";
     Issue.assignee := Some "lee"; Issue.labels := [];
     Issue.state := "opened"; Issue.category := None; Issue.note := None;
     Issue.web_url := "https://gitlab.example/10/5" |}.

Definition reply_with_markup : Data.t :=
  {| Data.issues := [ticked_title]; Data.assignee_summary := [("lee", 1)] |}.

Definition sample_stats : list Stat.t :=
  [Stat.mk "alice" "W1" 3; Stat.mk "bob" "W2" 5].


(** Every character of [s] passes [P]. *)
Fixpoint all_chars (P : Ascii.ascii → bool) (s : string) : bool :=
  match s with
  | "" => true
  | String c s' => P c && all_chars P s'
  end.

Definition comma_or_white_space (c : Ascii.ascii) : bool :=
  Js.is_white_space c || bool_decide (c = ","%char).


(** ** Further handlers and vocabulary *)

(** The [change] handler of [#select-all]: the click has set the box to
    [checked], and the handler gives every checkbox of the table body the
    same value. *)
Definition selectAllChange (checked : bool) : M unit :=
  modify_document (set_select_all checked);;
  d ← get_document;
  modify_document (set_issue_table
    ((λ r, {| row_issue := row_issue r;
              row_boxes := (λ b, {| box_id := box_id b; box_checked := checked |})
                             <$> row_boxes r |})
       <$> issue_table d)).

(** The [click] handler of the issues tab button. *)
Definition issuesTabClick : M unit :=
  renderDashboard;;
  renderIssues.

(** [exportIssues]: the result is the query of the URL
    [/api/issues/export?...] handed to [window.open]. *)
Definition exportIssues : M URLSearchParams :=
  params ← buildQueryParams;
  mret params.

(** [p.get(k)]: the value of the first entry named [k]. *)
Fixpoint params_get (p : URLSearchParams) (k : string) : option pvalue :=
  match p with
  | [] => None
  | (k', v) :: p' => if decide (k' = k) then Some v else params_get p' k
  end.

(** The search inputs are blank. *)
Definition no_criteria (d : Dom) : Prop :=
  Js.trim (search_text d) = "" ∧ Js.trim (search_author d) = "" ∧
  Js.trim (search_assignee d) = "" ∧ Js.trim (search_label d) = "" ∧
  Js.trim (search_category d) = "" ∧ Js.trim (search_note d) = "".

(** The criterion [buildQueryParams] sends for the input text [v]. *)
Definition criterion (v : string) : option pvalue :=
  if Js.truthy (Js.trim v) then Some (Text (Js.trim v)) else None.

(** The bar chart [renderAssigneeChart] leaves for a summary. *)
Definition summary_chart (summary : Js.obj Z) : option BarChart :=
  let labels := (Js.entries summary).*1 in
  if bool_decide (length labels = 0%nat) then None
  else Some {| bar_labels := labels;
               bar_data := (λ name, default 0 (Js.get summary name)) <$> labels |}.

(** The selected assignee [renderDashboard] leaves. *)
Definition checked_selection (s : State) : option string :=
  match selectedAssignee s with
  | Some name =>
      if Js.truthy name && negb (Js.has (assigneeSummary s) name)
      then None else Some name
  | None => None
  end.

Definition only_unassigned : Data.t :=
  {| Data.issues := [unassigned_empty];
     Data.assignee_summary := [("Unassigned", 1)] |}.

(** The first visit after a fetch, with the quick filter set to "lee". *)
Definition lee_selected : World :=
  exec (toggleAssigneeFilter (Some "lee"))
    (exec (fetchIssues false (Ok summary_with_lee)) first_visit).

(** The request of [fetchIssues] with the query [params]. *)
Definition the_issues_request (params : URLSearchParams) : Request :=
  {| method := "GET"; url := "/api/issues"; query := params; body := NoBody |}.

(** The request of [syncRepos] for the project ids [ids]. *)
Definition the_repos_request (ids : list Js.num) : Request :=
  {| method := "POST"; url := "/api/repos";
     query := (λ id, ("project_ids", Single id)) <$> ids; body := NoBody |}.

(** * Properties *)

(** ** The handlers, step by step *)

Lemma getProjectIds_run w :
  getProjectIds w =
    (project_id_list (document w),
     {| state := set_projectIds (project_id_list (document w)) (state w);
        document := document w; log := log w |}).
Proof. reflexivity. Qed.

Lemma renderIssues_run w :
  renderIssues w =
    ((), {| state := state w;
            document := set_select_all false (set_issue_table
              (render_row <$> filteredIssues (state w)) (document w));
            log := log w |}).
Proof. reflexivity. Qed.

Lemma exec_bind {A B} (m : M A) (k : A → M B) w :
  exec (m ≫= k) w = exec (k (m w).1) (m w).2.
Proof. unfold exec, mbind, M_bind. by destruct (m w). Qed.

Lemma renderDashboard_selected w :
  selectedAssignee (state (exec renderDashboard w)) =
    match selectedAssignee (state w) with
    | Some name =>
        if Js.truthy name && negb (Js.has (assigneeSummary (state w)) name)
        then None else Some name
    | None => None
    end.
Proof.
  unfold renderDashboard, renderAssigneeChart. run.
  destruct (selectedAssignee (state w)) as [name|] eqn:Hsel; simpl;
    [destruct (Js.truthy name && negb (Js.has (assigneeSummary (state w)) name)); simpl|];
    destruct (assigneeChart (state w)); simpl; case_bool_decide; simpl; done.
Qed.

(** [renderDashboard] writes [selectedAssignee] and [assigneeChart] only. *)
Lemma renderDashboard_frame w :
  let w' := exec renderDashboard w in
  projectIds (state w') = projectIds (state w) ∧
  issues (state w') = issues (state w) ∧
  assigneeSummary (state w') = assigneeSummary (state w) ∧
  chart (state w') = chart (state w) ∧
  document w' = document w ∧ log w' = log w.
Proof.
  unfold renderDashboard, renderAssigneeChart. run.
  destruct (selectedAssignee (state w)) as [name|] eqn:Hsel; simpl;
    [destruct (Js.truthy name && negb (Js.has (assigneeSummary (state w)) name)); simpl|];
    destruct (assigneeChart (state w)); simpl; case_bool_decide; simpl; done.
Qed.

(** In a freshly rendered table the only checked boxes are those that the
    markup of the fields brings. *)
Lemma checked_ids_fresh (l : list Issue.t) d :
  checked_ids (set_select_all false (set_issue_table (render_row <$> l) d))
    = markup_checked l.
Proof.
  unfold checked_ids, markup_checked. cbn [issue_table set_select_all set_issue_table].
  f_equal. induction l as [|issue l IH]; [done|].
  rewrite fmap_cons, !bind_cons, !filter_app, IH. by f_equal.
Qed.

Lemma fresh_rows (l : list Issue.t) : row_issue <$> (render_row <$> l) = l.
Proof. rewrite <- list_fmap_compose. apply list_fmap_id. Qed.

Lemma markup_checked_nil (l : list Issue.t) :
  (∀ issue, issue ∈ l → field_boxes issue = []) → markup_checked l = [].
Proof.
  intros Hplain. unfold markup_checked.
  assert (l ≫= field_boxes = []) as ->; [|done].
  induction l as [|issue l IH]; [done|].
  rewrite bind_cons, (Hplain issue), IH; [done | | by left].
  intros issue' Hin. apply Hplain. by right.
Qed.

Lemma filteredIssues_subseteq (s : State) issue :
  issue ∈ filteredIssues s → issue ∈ issues s.
Proof.
  unfold filteredIssues. destruct (Js.truthy_opt (selectedAssignee s)); [|done].
  by intros [_ ?]%list_elem_of_filter.
Qed.

Lemma install_spec data w :
  let w' := exec (install data) w in
  issues (state w') = Data.issues data ∧
  assigneeSummary (state w') = Data.assignee_summary data ∧
  checked_ids (document w')
    = markup_checked (filteredIssues (set_issues (Data.issues data) (state w))) ∧
  select_all (document w') = false ∧
  log w' = log w.
Proof.
  unfold install. rewrite !exec_bind.
  set (w1 := (renderIssues _).2).
  destruct (renderDashboard_frame w1) as (_ & Hi & Hs & _ & Hd & Hl).
  simpl. rewrite Hi, Hs, Hd, Hl. subst w1. rewrite renderIssues_run.
  cbn [snd state document log].
  split_and!; try done. apply checked_ids_fresh.
Qed.

Lemma fetchIssues_ok applyFilter data w :
  project_id_list (document w) ≠ [] →
  ∃ params,
    exec (fetchIssues applyFilter (Ok data)) w =
    exec (install data)
      {| state := set_projectIds (project_id_list (document w)) (state w);
         document := document w;
         log := log w ++ [Fetch {| method := "GET"; url := "/api/issues";
                                   query := params; body := NoBody |}] |}.
Proof.
  intros Hids. unfold fetchIssues, install. run.
  case_bool_decide as Hlen; [by destruct (project_id_list (document w))|].
  destruct applyFilter; simpl; eexists; reflexivity.
Qed.

Lemma refreshIssues_ok data w :
  project_id_list (document w) ≠ [] →
  exec (refreshIssues (Ok data)) w =
  exec (install data)
    {| state := set_projectIds (project_id_list (document w)) (state w);
       document := document w;
       log := log w ++ [Fetch {| method := "POST"; url := "/api/issues/refresh";
                                 query := [];
                                 body := RefreshBody (project_id_list (document w)) true |}] |}.
Proof.
  intros Hids. unfold refreshIssues, install. run.
  case_bool_decide as Hlen; [by destruct (project_id_list (document w))|].
  reflexivity.
Qed.

(** ** C1: incremental refresh *)

(** C1, amended: a successful refresh replaces the cache by the records of
    the reply, in the order received and with every field (category and
    note included) as the reply has it, whatever the cache held; the
    assignee summary is replaced by the one of the reply. *)
Theorem refreshIssues_replaces_cache (w : World) (data : Data.t) :
  project_id_list (document w) ≠ [] →
  let w' := exec (refreshIssues (Ok data)) w in
  issues (state w') = Data.issues data ∧
  assigneeSummary (state w') = Data.assignee_summary data.
Proof.
  intros Hids w'. subst w'. rewrite refreshIssues_ok by done.
  match goal with |- context [exec (install data) ?w0] =>
    destruct (install_spec data w0) as (Hi & Hs & _) end.
  done.
Qed.

(** ** C3: the assignee quick filter *)

(** C3, amended: under a (non-empty) quick filter the table shows exactly
    the cached issues, in cache order, whose assignee, or "Unassigned" when
    the assignee is absent or the empty string, equals the filter value;
    with no quick filter it shows the whole cache. *)
Theorem filteredIssues_by_assignee (s : State) :
  (∀ name, selectedAssignee s = Some name → name ≠ "" →
     filteredIssues s =
       filter (λ issue,
                 match Issue.assignee issue with
                 | None | Some "" => "Unassigned"
                 | Some a => a
                 end = name) (issues s))
  ∧ (selectedAssignee s = None → filteredIssues s = issues s)
  ∧ (∀ d l, row_issue <$> issue_table (document (exec renderIssues
               {| state := s; document := d; log := l |})) = filteredIssues s).
Proof.
  split_and!.
  - intros name Hsel Hne. unfold filteredIssues. rewrite Hsel. simpl.
    destruct name as [|c name]; [done|]. simpl.
    apply list_filter_iff. intros issue. unfold Js.or_else.
    destruct (Issue.assignee issue) as [[|c' a]|]; simpl; naive_solver.
  - intros Hsel. unfold filteredIssues. by rewrite Hsel.
  - intros d l. unfold exec. rewrite renderIssues_run. apply fresh_rows.
Qed.

(** ** C4: the quick filter against the summary *)

Lemma renderDashboard_selected_ok w :
  selected_ok (state w) → selected_ok (state (exec renderDashboard w)).
Proof.
  unfold selected_ok. rewrite renderDashboard_selected.
  destruct (selectedAssignee (state w)) as [name|]; [|done].
  by destruct (_ && _).
Qed.

Lemma step_selected_ok w w' :
  step w w' → selected_ok (state w) → selected_ok (state w').
Proof.
  destruct 1 as [w d' _|w e|w|w name|w data|w stats|w|w]; intros Hok; try done.
  - unfold selected_ok, select_assignee. run.
    destruct (bool_decide _ || _) eqn:Hc; [done|].
    apply orb_false_iff in Hc as [_ Hc]. by destruct name as [[|??]|].
  - by apply renderDashboard_selected_ok.
Qed.

Lemma reachable_selected_ok w : reachable w → selected_ok (state w).
Proof.
  intros (d & _ & Hrun).
  eapply (rtc_ind_r (λ w, selected_ok (state w))); [ | | exact Hrun].
  - by apply renderDashboard_selected_ok.
  - eauto using step_selected_ok.
Qed.


(** C4: a selected assignee whose name is a member of [Object.prototype]
    passes the test [in] of [renderDashboard] whatever the summary holds,
    and stays selected. *)
Theorem renderDashboard_keeps_inherited_name (w : World) (name : string) :
  selectedAssignee (state w) = Some name →
  Js.inherited name = true →
  selectedAssignee (state (exec renderDashboard w)) = Some name.
Proof.
  intros Hsel Hin. rewrite renderDashboard_selected, Hsel.
  unfold Js.has. rewrite Hin, orb_true_r. simpl. by rewrite andb_false_r.
Qed.

(** *** The handlers are runs of [step] *)

Lemma runs_ret {A} (x : A) : runs (mret x).
Proof. intros w. apply rtc_refl. Qed.

Lemma runs_bind {A B} (m : M A) (k : A → M B) :
  runs m → (∀ x, runs (k x)) → runs (m ≫= k).
Proof.
  intros Hm Hk w. rewrite exec_bind. etrans; [apply Hm | apply Hk].
Qed.

Lemma runs_get_state : runs get_state.
Proof. intros w. apply rtc_refl. Qed.

Lemma runs_get_document : runs get_document.
Proof. intros w. apply rtc_refl. Qed.

Lemma runs_toast message : runs (toast message).
Proof. intros w. apply rtc_once, step_emit. Qed.

Lemma runs_fetch {A} req (reply : Response A) : runs (fetch req reply).
Proof. intros w. apply rtc_once, (step_emit w (Fetch req)). Qed.

Lemma runs_getProjectIds : runs getProjectIds.
Proof. intros w. apply rtc_once, step_project_ids. Qed.

Lemma runs_renderIssues : runs renderIssues.
Proof. intros w. apply rtc_once, step_issues. Qed.

Lemma runs_renderDashboard : runs renderDashboard.
Proof. intros w. apply rtc_once, step_dashboard. Qed.

Lemma runs_store_reply data : runs (store_reply data).
Proof. intros w. apply rtc_once, step_reply. Qed.

Lemma runs_select_assignee name : runs (select_assignee name).
Proof. intros w. apply rtc_once, step_select. Qed.

Lemma runs_renderCommitChart stats : runs (renderCommitChart stats).
Proof. intros w. apply rtc_once, step_chart. Qed.

Create HintDb runs discriminated.
#[local] Hint Resolve runs_ret runs_get_state runs_get_document runs_toast
  runs_fetch runs_getProjectIds runs_renderIssues runs_renderDashboard
  runs_store_reply runs_select_assignee runs_renderCommitChart : runs.

Ltac runs_steps :=
  repeat first
    [ solve [auto with runs]
    | apply runs_bind; [|intros ?]
    | case_bool_decide
    | match goal with |- runs (match ?x with _ => _ end) => destruct x end ].

Lemma runs_buildQueryParams : runs buildQueryParams.
Proof. unfold buildQueryParams. runs_steps. Qed.

Lemma runs_fetchIssues applyFilter reply : runs (fetchIssues applyFilter reply).
Proof.
  pose proof runs_buildQueryParams. unfold fetchIssues. runs_steps.
Qed.

(** Every handler of the page is a sequence of steps. *)
Lemma handlers_run :
  (∀ name, runs (toggleAssigneeFilter name)) ∧
  (∀ reply, runs (syncRepos reply)) ∧
  (∀ applyFilter reply, runs (fetchIssues applyFilter reply)) ∧
  (∀ reply, runs (refreshIssues reply)) ∧
  (∀ reply refetch, runs (closeSelectedIssues reply refetch)) ∧
  (∀ reply, runs (loadCommitStats reply)).
Proof.
  pose proof runs_fetchIssues.
  split_and!; intros;
    unfold toggleAssigneeFilter, syncRepos, refreshIssues,
      closeSelectedIssues, loadCommitStats; runs_steps.
Qed.

Lemma stale_selection_reachable : reachable stale_selection.
Proof.
  exists (blank_page "10"). split; [done|]. unfold stale_selection.
  destruct handlers_run as (Htoggle & _ & Hfetch & _).
  etrans; [apply Hfetch|]. etrans; [apply Htoggle|].
  apply rtc_once, step_reply.
Defined.

Lemma inherited_selection_reachable : reachable inherited_selection.
Proof.
  exists (blank_page "10"). split; [done|]. unfold inherited_selection.
  destruct handlers_run as (Htoggle & _ & Hfetch & _).
  etrans; [apply Hfetch|]. etrans; [apply Htoggle|].
  apply rtc_once, step_reply.
Defined.


(** ** C5 and C6: bulk close *)

(** C5: with no box checked, [closeSelectedIssues] shows the toast and
    stops: no request leaves, the state and the document are as before. *)
Theorem closeSelectedIssues_empty_selection
    (w : World) (reply : Response ()) (refetch : Response Data.t) :
  checked_ids (document w) = [] →
  exec (closeSelectedIssues reply refetch) w
    = with_log w [Toast "선택된 이슈가 없습니다"].
Proof.
  intros Hnone. unfold closeSelectedIssues. run. by rewrite Hnone.
Qed.

(** C6, amended: for a non-empty selection, a bulk close answered with a
    reply that is not ok leaves the state and the document as they were,
    sends the one request and reports the failure; a bulk close answered ok
    is reported and goes on as [fetchIssues(true)], which, when project ids
    are entered and its own reply is ok, installs the reply as the cache
    and, for issues whose fields add no box, leaves no box checked. *)
Theorem closeSelectedIssues_outcomes (w : World) (refetch : Response Data.t) :
  checked_ids (document w) ≠ [] →
  exec (closeSelectedIssues NotOk refetch) w
    = with_log w [Fetch (the_bulk_close (document w)); Toast "이슈 close 실패"]
  ∧ exec (closeSelectedIssues (Ok ()) refetch) w
    = exec (fetchIssues true refetch)
        (with_log w [Fetch (the_bulk_close (document w));
                     Toast "선택한 이슈를 닫았습니다"])
  ∧ (project_id_list (document w) ≠ [] →
     ∀ data, refetch = Ok data →
       (∀ issue, issue ∈ Data.issues data → field_boxes issue = []) →
       let w' := exec (closeSelectedIssues (Ok ()) refetch) w in
       issues (state w') = Data.issues data ∧
       checked_ids (document w') = [] ∧
       select_all (document w') = false ∧
       ∃ params,
         log w' = log w ++ [Fetch (the_bulk_close (document w));
                            Toast "선택한 이슈를 닫았습니다";
                            Fetch {| method := "GET"; url := "/api/issues";
                                     query := params; body := NoBody |}]).
Proof.
  intros Hsel.
  assert (exec (closeSelectedIssues (Ok ()) refetch) w
    = exec (fetchIssues true refetch)
        (with_log w [Fetch (the_bulk_close (document w));
                     Toast "선택한 이슈를 닫았습니다"])) as Hok.
  { unfold closeSelectedIssues, with_log, the_bulk_close. run.
    case_bool_decide as Hlen; [by destruct (checked_ids (document w))|].
    simpl. by rewrite <- (assoc_L (++)). }
  split_and!.
  - unfold closeSelectedIssues, with_log, the_bulk_close. run.
    case_bool_decide as Hlen; [by destruct (checked_ids (document w))|].
    simpl. by rewrite <- (assoc_L (++)).
  - done.
  - intros Hids data -> Hplain w'. subst w'. rewrite Hok.
    destruct (fetchIssues_ok true data (with_log w [Fetch (the_bulk_close (document w));
                     Toast "선택한 이슈를 닫았습니다"]) Hids) as [params ->].
    match goal with |- context [exec (install data) ?w0] =>
      destruct (install_spec data w0) as (Hi & _ & Hc & Ha & Hl) end.
    split_and!; [done | | done | ].
    + rewrite Hc. apply markup_checked_nil.
      intros issue Hin%filteredIssues_subseteq. by apply Hplain.
    + exists params. rewrite Hl. simpl. by rewrite <- (assoc_L (++)).
Qed.

(** ** C7: a fetch or refresh that is not ok *)

(** C7, amended: when the reply to a fetch or a refresh is not ok, the
    cache, the assignee summary, the selected assignee, the charts and the
    document (so the checked boxes) are exactly as before; the one field of
    the state written is [projectIds], set to the ids read from the input. *)
Theorem failed_fetch_keeps_cache (w : World) (applyFilter : bool) :
  let ids := project_id_list (document w) in
  let w1 := exec (fetchIssues applyFilter NotOk) w in
  let w2 := exec (refreshIssues NotOk) w in
  (state w1 = set_projectIds ids (state w) ∧ document w1 = document w)
  ∧ (state w2 = set_projectIds ids (state w) ∧ document w2 = document w)
  ∧ (issues (state w1) = issues (state w) ∧
     assigneeSummary (state w1) = assigneeSummary (state w) ∧
     selectedAssignee (state w1) = selectedAssignee (state w) ∧
     checked_ids (document w1) = checked_ids (document w))
  ∧ (issues (state w2) = issues (state w) ∧
     assigneeSummary (state w2) = assigneeSummary (state w) ∧
     selectedAssignee (state w2) = selectedAssignee (state w) ∧
     checked_ids (document w2) = checked_ids (document w)).
Proof.
  intros ids w1 w2.
  assert (state w1 = set_projectIds ids (state w) ∧ document w1 = document w) as [H1 D1].
  { subst w1 ids. unfold fetchIssues. run. case_bool_decide; [done|].
    by destruct applyFilter. }
  assert (state w2 = set_projectIds ids (state w) ∧ document w2 = document w) as [H2 D2].
  { subst w2 ids. unfold refreshIssues. run. by case_bool_decide. }
  rewrite H1, H2, D1, D2. done.
Qed.

(** ** C8: no project id entered *)

(** C8, amended: with no project id entered, [syncRepos], [fetchIssues] and
    [refreshIssues] show the toast asking for project ids and send nothing;
    [loadCommitStats] sends nothing and shows nothing. *)
Theorem empty_project_ids_not_attempted (w : World) :
  project_id_list (document w) = [] →
  let w0 := {| state := set_projectIds [] (state w);
               document := document w; log := log w |} in
  (∀ reply, exec (syncRepos reply) w = with_log w0 [Toast "프로젝트 ID를 입력하세요"])
  ∧ (∀ applyFilter reply,
       exec (fetchIssues applyFilter reply) w
         = with_log w0 [Toast "프로젝트 ID를 입력하세요"])
  ∧ (∀ reply, exec (refreshIssues reply) w
         = with_log w0 [Toast "프로젝트 ID를 입력하세요"])
  ∧ (∀ reply, exec (loadCommitStats reply) w = w0).
Proof.
  intros Hnil w0. subst w0.
  split_and!; intros;
    unfold syncRepos, fetchIssues, refreshIssues, loadCommitStats, with_log;
    run; by rewrite Hnil.
Qed.

(** ** C9: rendering the table and the selection *)

(** C9: after a rendering of the table the checked boxes are exactly those
    that the markup of the fields of the issues shown brings: an issue
    whose title holds the markup of a checked checkbox leaves a box checked
    when the table has been rebuilt. *)
Theorem rendered_table_keeps_markup_boxes (w : World) :
  checked_ids (document (exec renderIssues w))
    = markup_checked (filteredIssues (state w))
  ∧ (∀ name,
       let w' := exec (toggleAssigneeFilter name) w in
       checked_ids (document w') = markup_checked (filteredIssues (state w')))
  ∧ (∀ issue box, issue ∈ filteredIssues (state w) →
       box ∈ field_boxes issue → box_checked box = true →
       box_id box ∈ checked_ids (document (exec renderIssues w))).
Proof.
  assert (∀ w0, checked_ids (document (exec renderIssues w0))
                = markup_checked (filteredIssues (state w0))) as Hrender.
  { intros w0. unfold exec. rewrite renderIssues_run. apply checked_ids_fresh. }
  split_and!; [done | | ].
  - intros name w'. subst w'. unfold toggleAssigneeFilter. rewrite !exec_bind.
    by rewrite Hrender.
  - intros issue box Hissue Hbox Hchecked. rewrite Hrender.
    unfold markup_checked. apply list_elem_of_fmap_2, list_elem_of_filter.
    split; [by rewrite Hchecked|]. apply list_elem_of_bind. eauto.
Qed.

(** For issues whose fields add no box, a rebuilt table has no checked box
    and [#select-all] is unchecked: after [renderIssues], after the quick
    filter is toggled, and after a fetch, filtered or not, or a refresh
    whose reply is ok. *)
Theorem rendered_table_has_no_selection (w : World) :
  ((∀ issue, issue ∈ issues (state w) → field_boxes issue = []) →
   no_selection (document (exec renderIssues w))
   ∧ ∀ name, no_selection (document (exec (toggleAssigneeFilter name) w)))
  ∧ (project_id_list (document w) ≠ [] →
     ∀ data,
       (∀ issue, issue ∈ Data.issues data → field_boxes issue = []) →
       (∀ applyFilter,
          no_selection (document (exec (fetchIssues applyFilter (Ok data)) w)))
       ∧ no_selection (document (exec (refreshIssues (Ok data)) w))).
Proof.
  assert (∀ w0, (∀ issue, issue ∈ issues (state w0) → field_boxes issue = []) →
                no_selection (document (exec renderIssues w0))) as Hrender.
  { intros w0 Hplain. unfold exec. rewrite renderIssues_run. simpl.
    split; [|done]. rewrite checked_ids_fresh. apply markup_checked_nil.
    intros issue Hin%filteredIssues_subseteq. by apply Hplain. }
  split.
  - intros Hplain. split; [by apply Hrender|].
    intros name. unfold toggleAssigneeFilter. rewrite !exec_bind.
    apply Hrender. intros issue.
    match goal with |- context [renderDashboard ?w0] =>
      destruct (renderDashboard_frame w0) as (_ & Hi & _) end.
    unfold exec in Hi. rewrite Hi. apply Hplain.
  - intros Hids data Hplain.
    assert (∀ w0, no_selection (document (exec (install data) w0))) as Hinstall.
    { intros w0. destruct (install_spec data w0) as (_ & _ & Hc & Ha & _).
      split; [|done]. rewrite Hc. apply markup_checked_nil.
      intros issue Hin%filteredIssues_subseteq. by apply Hplain. }
    split.
    + intros applyFilter.
      destruct (fetchIssues_ok applyFilter data w Hids) as [params ->].
      apply Hinstall.
    + rewrite refreshIssues_ok by done. apply Hinstall.
Qed.

(** ** Further properties of the handlers *)

(** *** The dashboard and the quick filter *)

Lemma renderDashboard_exec w :
  exec renderDashboard w =
    {| state := set_assigneeChart (summary_chart (assigneeSummary (state w)))
                  (set_selectedAssignee (checked_selection (state w)) (state w));
       document := document w; log := log w |}.
Proof.
  destruct w as [[ids cache summary commits bars selected] d l].
  unfold renderDashboard, renderAssigneeChart, summary_chart, checked_selection.
  run. destruct selected as [name|]; simpl;
    [destruct (Js.truthy name && negb (Js.has summary name)); simpl|];
    destruct bars; simpl; case_bool_decide; simpl; done.
Qed.

Lemma select_assignee_exec name w :
  exec (select_assignee name) w =
    {| state := set_selectedAssignee
                  (if bool_decide (selectedAssignee (state w) = name)
                      || negb (Js.truthy_opt name)
                   then None else name) (state w);
       document := document w; log := log w |}.
Proof. reflexivity. Qed.

Lemma renderIssues_exec w :
  exec renderIssues w =
    {| state := state w;
       document := set_select_all false (set_issue_table
         (render_row <$> filteredIssues (state w)) (document w));
       log := log w |}.
Proof. reflexivity. Qed.

Lemma toggleAssigneeFilter_exec name w :
  exec (toggleAssigneeFilter name) w
    = exec renderIssues (exec renderDashboard (exec (select_assignee name) w)).
Proof. unfold toggleAssigneeFilter. by rewrite !exec_bind. Qed.

(** [toggleAssigneeFilter] ends with the given name selected only when the
    name is non-empty, was not selected before and passes the test [in] on
    the assignee summary; in every other case no assignee is selected.  The
    table then shows the issues of the selection it ends with; the cache
    and the summary are as before. *)
Theorem toggleAssigneeFilter_outcome (name : option string) (w : World) :
  let w' := exec (toggleAssigneeFilter name) w in
  selectedAssignee (state w') =
    match name with
    | Some n =>
        if Js.truthy n
           && negb (bool_decide (selectedAssignee (state w) = Some n))
           && Js.has (assigneeSummary (state w)) n
        then Some n else None
    | None => None
    end
  ∧ row_issue <$> issue_table (document w') = filteredIssues (state w')
  ∧ select_all (document w') = false
  ∧ issues (state w') = issues (state w)
  ∧ assigneeSummary (state w') = assigneeSummary (state w).
Proof.
  intros w'. subst w'.
  rewrite toggleAssigneeFilter_exec, renderIssues_exec, renderDashboard_exec,
    select_assignee_exec.
  cbn [state document log]. unfold checked_selection.
  split_and!; [ | apply fresh_rows | done | done | done].
  simpl.
  destruct name as [n|]; simpl.
  - destruct (Js.truthy n) eqn:Hn; simpl.
    + case_bool_decide as Hsel; simpl; [done|]. rewrite Hn. simpl.
      by destruct (Js.has (assigneeSummary (state w)) n).
    + by rewrite orb_true_r.
  - by rewrite orb_true_r.
Qed.

Lemma install_exec data w :
  exec (install data) w
    = exec renderDashboard (exec renderIssues (exec (store_reply data) w)).
Proof. unfold install. by rewrite !exec_bind. Qed.

Lemma store_reply_exec data w :
  exec (store_reply data) w =
    {| state := set_assigneeSummary (Data.assignee_summary data)
                  (set_issues (Data.issues data) (state w));
       document := document w; log := log w |}.
Proof. reflexivity. Qed.

Lemma install_table data w :
  let w' := exec (install data) w in
  row_issue <$> issue_table (document w')
    = filteredIssues (set_issues (Data.issues data) (state w)) ∧
  selectedAssignee (state w')
    = checked_selection (set_assigneeSummary (Data.assignee_summary data) (state w)).
Proof.
  intros w'. subst w'.
  rewrite install_exec, renderDashboard_exec, renderIssues_exec, store_reply_exec.
  cbn [state document log]. split; [apply fresh_rows | done].
Qed.

(** After a fetch or a refresh whose reply is ok, the table holds the
    issues of the reply filtered by the assignee that was selected before
    the reply, because the table is rendered before [renderDashboard]
    checks the selection against the summary of the reply; the selection
    itself ends cleared when that summary does not pass it. *)
Theorem fetched_table_uses_previous_filter (w : World) (data : Data.t) :
  project_id_list (document w) ≠ [] →
  let shown := filteredIssues (set_issues (Data.issues data) (state w)) in
  let selected :=
    checked_selection (set_assigneeSummary (Data.assignee_summary data) (state w)) in
  (∀ applyFilter,
     let w' := exec (fetchIssues applyFilter (Ok data)) w in
     row_issue <$> issue_table (document w') = shown ∧
     selectedAssignee (state w') = selected)
  ∧ (let w' := exec (refreshIssues (Ok data)) w in
     row_issue <$> issue_table (document w') = shown ∧
     selectedAssignee (state w') = selected).
Proof.
  intros Hids shown selected. split.
  - intros applyFilter.
    destruct (fetchIssues_ok applyFilter data w Hids) as [params ->].
    apply install_table.
  - rewrite refreshIssues_ok by done. apply install_table.
Qed.

Lemma checked_selection_settled (s s' : State) :
  selectedAssignee s' = checked_selection s →
  assigneeSummary s' = assigneeSummary s →
  checked_selection s' = checked_selection s.
Proof.
  unfold checked_selection. intros -> ->.
  destruct (selectedAssignee s) as [name|]; [|done].
  destruct (Js.truthy name && negb (Js.has (assigneeSummary s) name)) eqn:Hc;
    [done|]. by rewrite Hc.
Qed.

Lemma issuesTabClick_exec w :
  exec issuesTabClick w = exec renderIssues (exec renderDashboard w).
Proof. unfold issuesTabClick. by rewrite !exec_bind. Qed.

(** The handler of the issues tab leaves the table showing the issues of
    the selection it ends with, [#select-all] unchecked, and running it
    again changes nothing. *)
Theorem issuesTabClick_settles (w : World) :
  let w' := exec issuesTabClick w in
  row_issue <$> issue_table (document w') = filteredIssues (state w')
  ∧ select_all (document w') = false
  ∧ exec issuesTabClick w' = w'.
Proof.
  intros w'. subst w'.
  rewrite !issuesTabClick_exec, !renderIssues_exec, !renderDashboard_exec.
  cbn [state document log].
  split_and!; [apply fresh_rows | done | ].
  set (s1 := set_assigneeChart (summary_chart (assigneeSummary (state w)))
               (set_selectedAssignee (checked_selection (state w)) (state w))).
  assert (checked_selection s1 = checked_selection (state w)) as Hsel
    by (by apply checked_selection_settled).
  assert (set_assigneeChart (summary_chart (assigneeSummary s1))
            (set_selectedAssignee (checked_selection s1) s1) = s1) as ->
    by (by rewrite Hsel).
  done.
Qed.

Lemma get_of_entry {V} (o : Js.obj V) k v :
  NoDup o.*1 → (k, v) ∈ o → Js.get o k = Some v.
Proof.
  induction o as [|[k0 v0] o IH]; intros Hnd Hin.
  - by apply elem_of_nil in Hin.
  - rewrite fmap_cons in Hnd. apply NoDup_cons in Hnd as [Hk0 Hnd].
    cbn [Js.get]. case_decide as Hk; simpl in *; subst.
    + apply elem_of_cons in Hin as [[= <-]|Hin]; [done|].
      destruct Hk0. apply list_elem_of_fmap. by exists (k, v).
    + apply elem_of_cons in Hin as [[= ??]|Hin]; [congruence|]. by apply IH.
Qed.

Lemma summary_chart_spec (summary : Js.obj Z) :
  NoDup summary.*1 →
  match summary_chart summary with
  | None => summary = []
  | Some bars =>
      summary ≠ [] ∧
      bar_labels bars = (Js.entries summary).*1 ∧
      bar_data bars = (Js.entries summary).*2
  end.
Proof.
  intros Hnd. unfold summary_chart. rewrite length_fmap.
  assert (Js.entries summary ≡ₚ summary) as Hperm.
  { unfold Js.entries. rewrite merge_sort_Permutation.
    apply filter_app_complement. }
  case_bool_decide as Hlen.
  - apply nil_length_inv in Hlen. rewrite Hlen in Hperm.
    by apply Permutation_nil_l in Hperm.
  - simpl. split_and!; [by intros -> | done | ].
    rewrite <- list_fmap_compose. apply list_fmap_ext.
    intros _ [k v] Hin%list_elem_of_lookup_2. simpl.
    rewrite Hperm in Hin. by rewrite (get_of_entry summary k v).
Qed.

(** After [renderDashboard], for a summary with distinct keys,
    [state.assigneeChart] is [null] exactly when the summary is empty, and
    otherwise holds the keys of the summary in the order of
    [Object.keys] with their counts aligned. *)
Theorem renderDashboard_chart_mirrors_summary (w : World) :
  NoDup (assigneeSummary (state w)).*1 →
  match assigneeChart (state (exec renderDashboard w)) with
  | None => assigneeSummary (state w) = []
  | Some bars =>
      assigneeSummary (state w) ≠ [] ∧
      bar_labels bars = (Js.entries (assigneeSummary (state w))).*1 ∧
      bar_data bars = (Js.entries (assigneeSummary (state w))).*2
  end.
Proof.
  intros Hnd. rewrite renderDashboard_exec. cbn [state assigneeChart set_assigneeChart].
  by apply summary_chart_spec.
Qed.

(** *** Queries *)

(** The query [buildQueryParams] builds names each key once, always
    carries the joined project ids, and carries a search criterion exactly
    when its input is not blank, with the input trimmed. *)
Theorem buildQueryParams_lookup (w : World) :
  let params := (buildQueryParams w).1 in
  let d := document w in
  NoDup params.*1
  ∧ params_get params "project_ids" = Some (Joined (project_id_list d))
  ∧ params_get params "query" = criterion (search_text d)
  ∧ params_get params "author" = criterion (search_author d)
  ∧ params_get params "assignee" = criterion (search_assignee d)
  ∧ params_get params "label" = criterion (search_label d)
  ∧ params_get params "category" = criterion (search_category d)
  ∧ params_get params "note" = criterion (search_note d)
  ∧ (buildQueryParams w).2 = exec getProjectIds w.
Proof.
  unfold buildQueryParams, criterion, set_if_truthy. run.
  destruct (Js.truthy (Js.trim (search_text (document w))));
  destruct (Js.truthy (Js.trim (search_author (document w))));
  destruct (Js.truthy (Js.trim (search_assignee (document w))));
  destruct (Js.truthy (Js.trim (search_label (document w))));
  destruct (Js.truthy (Js.trim (search_category (document w))));
  destruct (Js.truthy (Js.trim (search_note (document w))));
  (split; [cbn; compute_done | by cbn]).
Qed.

Lemma buildQueryParams_blank (w : World) :
  no_criteria (document w) →
  buildQueryParams w
    = ([("project_ids", Joined (project_id_list (document w)))],
       exec getProjectIds w).
Proof.
  intros (Hq & Ha & Hs & Hl & Hc & Hn).
  unfold buildQueryParams, set_if_truthy. run.
  by rewrite Hq, Ha, Hs, Hl, Hc, Hn.
Qed.

(** With every search input blank, applying the filter is the plain fetch:
    the same request, the same effect on the state and the table. *)
Theorem blank_filter_is_plain_fetch (w : World) (reply : Response Data.t) :
  no_criteria (document w) →
  exec (fetchIssues true reply) w = exec (fetchIssues false reply) w.
Proof.
  intros Hblank. unfold fetchIssues. rewrite !exec_bind, getProjectIds_run.
  cbn [fst snd]. case_bool_decide; [done|].
  rewrite !exec_bind. rewrite buildQueryParams_blank by done.
  reflexivity.
Qed.

(** The export opens the download with exactly the query that the filtered
    fetch sends, and it does so without the check for project ids that
    [fetchIssues] makes. *)
Theorem exportIssues_query (w : World) :
  (exportIssues w).1 = (buildQueryParams w).1
  ∧ exec exportIssues w = exec getProjectIds w
  ∧ (project_id_list (document w) ≠ [] →
     exec (fetchIssues true NotOk) w
       = with_log (exec getProjectIds w)
           [Fetch (the_issues_request (exportIssues w).1); Toast "이슈 조회 실패"])
  ∧ (project_id_list (document w) = [] →
     params_get (exportIssues w).1 "project_ids" = Some (Joined [])
     ∧ exec (fetchIssues true NotOk) w
       = with_log (exec getProjectIds w) [Toast "프로젝트 ID를 입력하세요"]).
Proof.
  split_and!; [done | done | | ].
  - intros Hne. unfold fetchIssues, exportIssues, buildQueryParams,
      with_log, the_issues_request. run.
    case_bool_decide as Hlen; [by destruct (project_id_list (document w))|].
    simpl. by rewrite <- (assoc_L (++)).
  - intros Hnil. split.
    + unfold exportIssues, buildQueryParams, set_if_truthy. run. rewrite Hnil.
      destruct (Js.truthy (Js.trim (search_text (document w))));
      destruct (Js.truthy (Js.trim (search_author (document w))));
      destruct (Js.truthy (Js.trim (search_assignee (document w))));
      destruct (Js.truthy (Js.trim (search_label (document w))));
      destruct (Js.truthy (Js.trim (search_category (document w))));
      destruct (Js.truthy (Js.trim (search_note (document w)))); done.
    + unfold fetchIssues, with_log. run. by rewrite Hnil.
Qed.

Lemma append_each_id (ids : list Js.num) (p : URLSearchParams) :
  foldl (λ p id, params_append p "project_ids" (Single id)) p ids
    = p ++ ((λ id, ("project_ids", Single id)) <$> ids).
Proof.
  revert p. induction ids as [|id ids IH]; intros p; simpl.
  - by rewrite app_nil_r.
  - rewrite IH. unfold params_append. by rewrite <- (assoc_L (++)).
Qed.

(** [syncRepos] with project ids entered sends one request whose query has
    one [project_ids] entry per id, in the order entered, reports a reply
    that is not ok and nothing else; whatever the reply, it leaves the
    cache, the summary, the selection and the table as they were. *)
Theorem syncRepos_outcomes (w : World) :
  let ids := project_id_list (document w) in
  ids ≠ [] →
  (∀ repos, exec (syncRepos (Ok repos)) w
     = with_log (exec getProjectIds w) [Fetch (the_repos_request ids)])
  ∧ exec (syncRepos NotOk) w
     = with_log (exec getProjectIds w)
         [Fetch (the_repos_request ids); Toast "레포지토리 동기화 실패"].
Proof.
  intros ids Hids. subst ids.
  split; [intros repos|]; unfold syncRepos, with_log, the_repos_request; run;
    (case_bool_decide as Hlen; [by destruct (project_id_list (document w))|]);
    simpl; rewrite append_each_id; simpl; [done|].
  by rewrite <- (assoc_L (++)).
Qed.

(** *** The commit statistics *)


(** *** Runs of the page *)

Lemma without_ids_exec (w : World) :
  project_id_list (document w) = [] →
  (∀ reply, exec (syncRepos reply) w
     = with_log (exec getProjectIds w) [Toast "프로젝트 ID를 입력하세요"])
  ∧ (∀ applyFilter reply, exec (fetchIssues applyFilter reply) w
     = with_log (exec getProjectIds w) [Toast "프로젝트 ID를 입력하세요"])
  ∧ (∀ reply, exec (loadCommitStats reply) w = exec getProjectIds w).
Proof.
  intros Hnil.
  split_and!; intros;
    unfold syncRepos, fetchIssues, loadCommitStats, with_log;
    run; by rewrite Hnil.
Qed.

Lemma getProjectIds_exec (w : World) :
  exec getProjectIds w =
    {| state := set_projectIds (project_id_list (document w)) (state w);
       document := document w; log := log w |}.
Proof. reflexivity. Qed.

(** With no project id entered, the click on the sync button, which runs
    [syncRepos], [fetchIssues] and [loadCommitStats] in turn, shows the
    toast asking for project ids twice and sends no request; the cache, the
    summary, the selection and the table stay as they were. *)
Theorem sync_click_without_ids (w : World) reply1 reply2 reply3 :
  project_id_list (document w) = [] →
  exec (loadCommitStats reply3)
    (exec (fetchIssues false reply2) (exec (syncRepos reply1) w))
  = with_log (exec getProjectIds w)
      [Toast "프로젝트 ID를 입력하세요"; Toast "프로젝트 ID를 입력하세요"].
Proof.
  intros Hnil.
  destruct (without_ids_exec w Hnil) as (-> & _ & _).
  set (w1 := with_log (exec getProjectIds w) [Toast "프로젝트 ID를 입력하세요"]).
  assert (project_id_list (document w1) = []) as Hnil1 by done.
  destruct (without_ids_exec w1 Hnil1) as (_ & -> & _).
  set (w2 := with_log (exec getProjectIds w1) [Toast "프로젝트 ID를 입력하세요"]).
  assert (project_id_list (document w2) = []) as Hnil2 by done.
  destruct (without_ids_exec w2 Hnil2) as (_ & _ & ->).
  subst w2 w1. rewrite !getProjectIds_exec. unfold with_log.
  cbn [state document log]. rewrite Hnil. cbn [set_projectIds projectIds issues
    assigneeSummary chart assigneeChart selectedAssignee].
  by rewrite <- (assoc_L (++)).
Qed.

(** In every world of a run the selected assignee is [null] or a non-empty
    name: [toggleAssigneeFilter] never stores the empty string, so the
    truthiness tests on [state.selectedAssignee] only ever tell [null] from
    a name. *)
Theorem selected_assignee_never_empty (w : World) :
  reachable w →
  selectedAssignee (state w) = None ∨
  ∃ name, selectedAssignee (state w) = Some name ∧ Js.truthy name = true.
Proof.
  intros Hok%reachable_selected_ok. unfold selected_ok in Hok.
  destruct (selectedAssignee (state w)) as [[|c name]|]; [done | | by left].
  right. by eexists.
Qed.

(** *** Selecting and closing *)

Lemma checked_ids_all (checked : bool) (table : list Row) (d : Dom) :
  checked_ids (set_issue_table
    ((λ r, {| row_issue := row_issue r;
              row_boxes := (λ b, {| box_id := box_id b; box_checked := checked |})
                             <$> row_boxes r |}) <$> table) d)
  = if checked then box_id <$> (table ≫= row_boxes) else [].
Proof.
  unfold checked_ids. cbn [issue_table set_issue_table].
  induction table as [|r table IH]; [by destruct checked|].
  rewrite fmap_cons, !bind_cons, filter_app, fmap_app, IH.
  cbn [row_boxes].
  assert (box_id <$> filter (λ b, box_checked b)
            ((λ b, {| box_id := box_id b; box_checked := checked |}) <$> row_boxes r)
          = if checked then box_id <$> row_boxes r else []) as ->.
  { induction (row_boxes r) as [|b bs IHb]; [by destruct checked|].
    rewrite fmap_cons. destruct checked.
    - rewrite (filter_cons_True _ _ _); [|exact I].
      rewrite !fmap_cons. by rewrite IHb.
    - rewrite (filter_cons_False _ _ _); [done|exact id]. }
  destruct checked; [by rewrite fmap_app | done].
Qed.

Lemma plain_rows_ids (l : list Issue.t) :
  (∀ issue, issue ∈ l → field_boxes issue = []) →
  box_id <$> ((render_row <$> l) ≫= row_boxes)
    = (λ issue, Js.Number (Js.ToString (Issue.id issue))) <$> l.
Proof.
  induction l as [|issue l IH]; intros Hplain; [done|].
  rewrite !fmap_cons, bind_cons, fmap_app, IH.
  - cbn [render_row row_boxes]. rewrite (Hplain issue); [done | by left].
  - intros issue' Hin. apply Hplain. by right.
Qed.

Lemma closeSelectedIssues_not_ok (w : World) (refetch : Response Data.t) :
  exec (closeSelectedIssues NotOk refetch) w =
    match checked_ids (document w) with
    | [] => with_log w [Toast "선택된 이슈가 없습니다"]
    | ids => with_log w [Fetch {| method := "POST"; url := "/api/issues/bulk-close";
                                  query := []; body := BulkCloseBody ids |};
                         Toast "이슈 close 실패"]
    end.
Proof.
  unfold closeSelectedIssues, with_log. run.
  destruct (checked_ids (document w)) as [|id ids]; simpl; [done|].
  by rewrite <- (assoc_L (++)).
Qed.

(** Ticking [#select-all] checks every box of the table, so that, for
    issues whose fields add no box, a bulk close started right after a
    rendering sends the ids of exactly the issues shown, in the order
    shown; unticking it leaves nothing checked, and the bulk close then
    stops at the toast. *)
Theorem selectAllChange_selects_shown (w : World) (refetch : Response Data.t) :
  (∀ issue, issue ∈ issues (state w) → field_boxes issue = []) →
  let shown := (λ issue, Js.Number (Js.ToString (Issue.id issue)))
                 <$> filteredIssues (state w) in
  let w1 := exec (selectAllChange true) (exec renderIssues w) in
  let w0 := exec (selectAllChange false) (exec renderIssues w) in
  checked_ids (document w1) = shown
  ∧ checked_ids (document w0) = []
  ∧ exec (closeSelectedIssues NotOk refetch) w0
      = with_log w0 [Toast "선택된 이슈가 없습니다"]
  ∧ (shown ≠ [] →
     exec (closeSelectedIssues NotOk refetch) w1
       = with_log w1 [Fetch {| method := "POST"; url := "/api/issues/bulk-close";
                               query := []; body := BulkCloseBody shown |};
                      Toast "이슈 close 실패"]).
Proof.
  intros Hplain shown w1 w0.
  assert (checked_ids (document w1) = shown) as H1.
  { subst w1 shown. rewrite renderIssues_exec. unfold selectAllChange. run.
    rewrite (checked_ids_all true). apply plain_rows_ids.
    intros issue Hin%filteredIssues_subseteq. by apply Hplain. }
  assert (checked_ids (document w0) = []) as H0.
  { subst w0. rewrite renderIssues_exec. unfold selectAllChange. run.
    by rewrite (checked_ids_all false). }
  split_and!; [done | done | | ].
  - by rewrite closeSelectedIssues_not_ok, H0.
  - intros Hshown. rewrite closeSelectedIssues_not_ok, H1. by destruct shown.
Qed.
End page.

(** ** C2 and C10: the commit bucketizer *)

(** *** Plain objects *)

Section plain_objects.
Context {V : Type}.
Implicit Types (o : Js.obj V) (k : string) (v : V).

Lemma get_set o k v k' :
  Js.get (Js.set o k v) k' = if decide (k = k') then Some v else Js.get o k'.
Proof.
  induction o as [|[k0 v0] o IH]; simpl.
  - repeat case_decide; done.
  - destruct (decide (k0 = k)) as [->|Hne]; simpl.
    + repeat case_decide; done.
    + rewrite IH. repeat case_decide; congruence.
Qed.

Lemma get_None o k : Js.get o k = None ↔ k ∉ o.*1.
Proof.
  induction o as [|[k0 v0] o IH]; simpl.
  - split; [intros _; apply not_elem_of_nil | done].
  - rewrite not_elem_of_cons. case_decide as Hk; simpl.
    + split; [done | intros [Hne _]; congruence].
    + rewrite IH. split; [by split | by intros [_ ?]].
Qed.

Lemma keys_set o k v :
  (Js.set o k v).*1 = if Js.get o k is Some _ then o.*1 else o.*1 ++ [k].
Proof.
  induction o as [|[k0 v0] o IH]; [done|].
  cbn [Js.set Js.get]. destruct (decide (k0 = k)) as [->|Hne]; [done|].
  rewrite !fmap_cons, IH. by destruct (Js.get o k).
Qed.

Lemma NoDup_keys_set o k v : NoDup o.*1 → NoDup (Js.set o k v).*1.
Proof.
  intros Hnd. rewrite keys_set. destruct (Js.get o k) eqn:Hget; [done|].
  apply NoDup_app. split_and!; [done | | apply NoDup_singleton].
  intros k' Hin ->%list_elem_of_singleton. by apply get_None in Hget.
Qed.

Lemma elem_of_get o k v : NoDup o.*1 → (k, v) ∈ o ↔ Js.get o k = Some v.
Proof.
  induction o as [|[k0 v0] o IH]; intros Hnd.
  - split; [by intros ?%elem_of_nil | done].
  - rewrite fmap_cons in Hnd. apply NoDup_cons in Hnd as [Hk0 Hnd].
    cbn [Js.get]. rewrite elem_of_cons, IH by done.
    case_decide as Hk; simpl in *; subst.
    + split; [intros [[= <-]|Hget]; [done|] | intros [= <-]; by left].
      apply get_None in Hk0. congruence.
    + split; [intros [[= ??]|?]; [congruence | done] | by right].
Qed.

Lemma entries_Permutation o : Js.entries o ≡ₚ o.
Proof.
  unfold Js.entries. rewrite merge_sort_Permutation.
  apply filter_app_complement.
Qed.

Lemma has_own o k : Js.inherited k = false → Js.has o k = bool_decide (is_Some (Js.get o k)).
Proof. intros Hk. unfold Js.has. rewrite Hk. apply orb_false_r. Qed.

Lemma has_inherited o k : Js.inherited k = true → Js.has o k = true.
Proof. intros Hk. unfold Js.has. rewrite Hk. apply orb_true_r. Qed.
End plain_objects.

(** *** Weeks, groups and lines *)

Lemma Set_from_spec `{EqDecision A} (xs : list A) :
  NoDup (Js.Set_from xs) ∧ ∀ x, x ∈ Js.Set_from xs ↔ x ∈ xs.
Proof.
  unfold Js.Set_from.
  cut (∀ seen : list A, NoDup seen →
        let out := foldl (λ (seen : list A) x,
                     if decide (x ∈ seen) then seen else seen ++ [x]) seen xs in
        NoDup out ∧ ∀ x, x ∈ out ↔ x ∈ seen ∨ x ∈ xs).
  { intros Hcut. destruct (Hcut [] (NoDup_nil_2)) as [Hnd Hin].
    split; [done|]. intros x. rewrite Hin. rewrite elem_of_nil. tauto. }
  induction xs as [|y xs IH]; intros seen Hnd; simpl.
  - split; [done|]. intros x. rewrite elem_of_nil. tauto.
  - case_decide as Hy.
    + destruct (IH seen Hnd) as [Hnd' Hin]. split; [done|].
      intros x. rewrite Hin, elem_of_cons.
      split; [tauto | intros [?|[->|?]]; tauto].
    + destruct (IH (seen ++ [y])) as [Hnd' Hin].
      { apply NoDup_app. split_and!; [done| |apply NoDup_singleton].
        by intros x Hx ->%list_elem_of_singleton. }
      split; [done|]. intros x.
      rewrite Hin, elem_of_app, list_elem_of_singleton, elem_of_cons. tauto.
Qed.

Lemma last_row_snoc stats r a w :
  last_row (stats ++ [r]) a w =
    if decide (Stat.author r = a ∧ Stat.week r = w) then Some r
    else last_row stats a w.
Proof.
  unfold last_row. rewrite filter_app. case_decide as Hr.
  - rewrite filter_cons_True by done. rewrite filter_nil.
    by rewrite last_snoc.
  - rewrite filter_cons_False by done. rewrite filter_nil.
    by rewrite app_nil_r.
Qed.

Lemma last_row_None stats a w :
  last_row stats a w = None ↔
  ∀ r, r ∈ stats → Stat.author r = a → Stat.week r ≠ w.
Proof.
  unfold last_row. rewrite last_None. split.
  - intros Hnil r Hr Ha Hw.
    assert (r ∈ filter (λ r, Stat.author r = a ∧ Stat.week r = w) stats) as Hin
      by (by apply list_elem_of_filter).
    rewrite Hnil in Hin. by apply elem_of_nil in Hin.
  - intros Hno. apply elem_of_nil_inv. intros r [[Ha Hw] Hr]%list_elem_of_filter.
    by apply (Hno r).
Qed.

Lemma last_row_Some stats a w r :
  last_row stats a w = Some r →
  r ∈ stats ∧ Stat.author r = a ∧ Stat.week r = w.
Proof.
  unfold last_row. intros Hin%last_Some_elem_of.
  apply list_elem_of_filter in Hin. tauto.
Qed.

Lemma keyed_snoc stats r :
  keyed (stats ++ [r]) = keyed stats && negb (Js.inherited (Stat.author r)).
Proof. unfold keyed. rewrite forallb_app. simpl. by rewrite andb_true_r. Qed.

Lemma keyed_elem_of stats r :
  keyed stats → r ∈ stats → Js.inherited (Stat.author r) = false.
Proof.
  unfold keyed. intros Hkeyed%Is_true_true Hr. rewrite forallb_forall in Hkeyed.
  apply negb_true_iff, Hkeyed. by apply list_elem_of_In.
Qed.

Lemma group_stats_snoc stats r :
  group_stats (stats ++ [r]) = group_stats stats ≫= λ g, group_row g r.
Proof. unfold group_stats. by rewrite foldl_snoc. Qed.

(** The row of an author that is not an inherited name is stored: in the
    entry of the author, made empty first when there is none. *)
Lemma group_row_keyed g r :
  Js.inherited (Stat.author r) = false →
  group_row g r =
    Some (Js.set (if Js.get g (Stat.author r) is Some _ then g
                  else Js.set g (Stat.author r) ∅)
            (Stat.author r)
            (<[Stat.week r := r]> (default ∅ (Js.get g (Stat.author r))))).
Proof.
  intros Hkey. unfold group_row, group_entry. rewrite has_own by done.
  destruct (Js.get g (Stat.author r)) as [values|] eqn:Hget.
  - rewrite bool_decide_true by done. by rewrite Hget.
  - rewrite bool_decide_false by (by intros [??]).
    rewrite get_set. by rewrite decide_True.
Qed.

(** The row of an author that is an inherited name has no entry to go to. *)
Lemma group_row_inherited g r :
  Js.inherited (Stat.author r) = true → Js.get g (Stat.author r) = None →
  group_row g r = None.
Proof.
  intros Hin Hget. unfold group_row, group_entry. rewrite has_inherited by done.
  by rewrite Hget.
Qed.

Lemma group_stats_spec (stats : list Stat.t) (g : Js.obj (gmap string Stat.t)) :
  group_stats stats = Some g →
  keyed stats ∧ NoDup g.*1 ∧
  ∀ a, match Js.get g a with
       | Some values => (∃ r, r ∈ stats ∧ Stat.author r = a) ∧
                        ∀ w, values !! w = last_row stats a w
       | None => ∀ r, r ∈ stats → Stat.author r ≠ a
       end.
Proof.
  revert g. induction stats as [|r stats IH] using rev_ind; intros g'.
  - intros [= <-]. split_and!; [done | apply NoDup_nil_2 |].
    intros a r Hr. by apply elem_of_nil in Hr.
  - rewrite group_stats_snoc.
    destruct (group_stats stats) as [g|]; [simpl | done].
    destruct (IH g eq_refl) as (Hkeyed & Hnd & Hspec). intros Hrow.
    assert (Js.inherited (Stat.author r) = false) as Hkey.
    { destruct (Js.inherited (Stat.author r)) eqn:Hin; [|done].
      pose proof (Hspec (Stat.author r)) as Hr.
      destruct (Js.get g (Stat.author r)) as [values|] eqn:Hget.
      - destruct Hr as [(r' & Hr' & Ha) _].
        rewrite <- Ha, (keyed_elem_of stats r') in Hin; done.
      - by rewrite group_row_inherited in Hrow. }
    rewrite group_row_keyed in Hrow by done. injection Hrow as <-.
    split_and!.
    + rewrite keyed_snoc, Hkey. by destruct (keyed stats).
    + apply NoDup_keys_set. destruct (Js.get g (Stat.author r)); [done|].
      by apply NoDup_keys_set.
    + intros a. rewrite get_set. case_decide as Ha.
      * subst a. split.
        { exists r. split; [|done]. apply elem_of_app. right.
          by apply list_elem_of_singleton. }
        intros w. rewrite last_row_snoc.
        destruct (decide (Stat.week r = w)) as [<-|Hw].
        -- rewrite lookup_insert_eq. by rewrite decide_True.
        -- rewrite lookup_insert_ne by done. rewrite decide_False by tauto.
           pose proof (Hspec (Stat.author r)) as Hr.
           destruct (Js.get g (Stat.author r)) as [values|]; simpl.
           ++ apply Hr.
           ++ rewrite lookup_empty. symmetry. apply last_row_None.
              intros r' Hr' Ha'. by destruct (Hr r' Hr').
      * assert (Js.get (if Js.get g (Stat.author r) is Some _ then g
                        else Js.set g (Stat.author r) ∅) a = Js.get g a) as ->.
        { destruct (Js.get g (Stat.author r)); [done|].
          rewrite get_set. by rewrite decide_False. }
        pose proof (Hspec a) as Hspeca. destruct (Js.get g a) as [values'|].
        -- destruct Hspeca as [(r' & Hr' & Ha') Hw]. split.
           ++ exists r'. split; [apply elem_of_app; by left | done].
           ++ intros w. rewrite last_row_snoc. rewrite decide_False by tauto.
              apply Hw.
        -- intros r' [Hr'| ->%list_elem_of_singleton]%elem_of_app;
             [by apply Hspeca | done].
Qed.

Lemma group_stats_keyed (stats : list Stat.t) :
  keyed stats → is_Some (group_stats stats).
Proof.
  induction stats as [|r stats IH] using rev_ind; [by eexists|].
  rewrite keyed_snoc. intros [Hkeyed Hr%negb_prop_elim]%andb_prop_elim.
  destruct (IH Hkeyed) as [g Hg]. rewrite group_stats_snoc, Hg. simpl.
  rewrite group_row_keyed; [by eexists|]. by destruct (Js.inherited _).
Qed.

Lemma commit_chart_data_Some stats chart :
  commit_chart_data stats = Some chart →
  ∃ g, group_stats stats = Some g ∧ labels chart = weeks_of stats ∧
       datasets chart = imap (dataset_of (weeks_of stats)) (Js.entries g).
Proof.
  unfold commit_chart_data. destruct (group_stats stats) as [g|]; [|done].
  simpl. intros [= <-]. by exists g.
Qed.

Lemma commit_chart_data_keyed stats :
  keyed stats ↔ is_Some (commit_chart_data stats).
Proof.
  split.
  - intros [g Hg]%group_stats_keyed. unfold commit_chart_data. rewrite Hg.
    by eexists.
  - intros [chart (g & Hg & _)%commit_chart_data_Some].
    by apply group_stats_spec in Hg as [? _].
Qed.

Lemma or_zero_commits (row : option Stat.t) :
  Js.or_zero (Stat.commits <$> row) = from_option Stat.commits 0 row.
Proof. destruct row as [r|]; simpl; [|done]. by case_decide. Qed.

Lemma weeks_of_spec (stats : list Stat.t) :
  StronglySorted String.le (weeks_of stats) ∧ NoDup (weeks_of stats) ∧
  ∀ w, w ∈ weeks_of stats ↔ ∃ r, r ∈ stats ∧ Stat.week r = w.
Proof.
  unfold weeks_of, Js.sort.
  destruct (Set_from_spec (Stat.week <$> stats)) as [Hnd Hin].
  split_and!.
  - apply StronglySorted_merge_sort; apply _.
  - by rewrite merge_sort_Permutation.
  - intros w. rewrite merge_sort_Permutation, Hin, list_elem_of_fmap.
    split; intros (r & ? & ?); eauto.
Qed.

Lemma dataset_labels (stats : list Stat.t) chart g :
  commit_chart_data stats = Some chart → group_stats stats = Some g →
  Dataset.label <$> datasets chart = (Js.entries g).*1.
Proof.
  intros (g' & Hg' & _ & ->)%commit_chart_data_Some Hg.
  assert (g' = g) as -> by congruence.
  rewrite fmap_imap. rewrite <- imap_const. by apply imap_ext.
Qed.

Lemma dataset_inv (stats : list Stat.t) chart (d : Dataset.t) :
  commit_chart_data stats = Some chart → d ∈ datasets chart →
  Dataset.data d =
    (λ w, from_option Stat.commits 0 (last_row stats (Dataset.label d) w))
      <$> weeks_of stats.
Proof.
  intros (g & Hg & _ & ->)%commit_chart_data_Some.
  intros (i & [a values] & -> & Hi)%elem_of_lookup_imap. simpl.
  destruct (group_stats_spec stats g Hg) as (_ & Hnd & Hget).
  assert (Js.get g a = Some values) as Ha.
  { apply elem_of_get; [done|]. rewrite <- entries_Permutation.
    by eapply list_elem_of_lookup_2. }
  specialize (Hget a). rewrite Ha in Hget. destruct Hget as [_ Hvalues].
  apply list_fmap_ext. intros _ w _.
  by rewrite Hvalues, or_zero_commits.
Qed.

Lemma dataset_authors (stats : list Stat.t) chart :
  commit_chart_data stats = Some chart →
  NoDup (Dataset.label <$> datasets chart) ∧
  ∀ a, a ∈ Dataset.label <$> datasets chart ↔
       ∃ r, r ∈ stats ∧ Stat.author r = a.
Proof.
  intros Hchart.
  destruct (commit_chart_data_Some _ _ Hchart) as (g & Hg & _).
  rewrite (dataset_labels stats chart g) by done.
  destruct (group_stats_spec stats g Hg) as (_ & Hnd & Hget).
  assert ((Js.entries g).*1 ≡ₚ g.*1) as Hperm
    by (by rewrite entries_Permutation).
  split; [by rewrite Hperm|].
  intros a. rewrite Hperm. specialize (Hget a).
  destruct (Js.get g a) as [values|] eqn:Ha.
  - split; [intros _; apply Hget | intros _].
    destruct (decide (a ∈ g.*1)) as [|Hnot]; [done|].
    apply get_None in Hnot. congruence.
  - apply get_None in Ha. split; [done | intros (r & Hr & Hauthor)].
    by destruct (Hget r Hr).
Qed.

Lemma dataset_entry (stats : list Stat.t) chart (d : Dataset.t) (i : nat) (w : string) :
  commit_chart_data stats = Some chart → d ∈ datasets chart →
  labels chart !! i = Some w →
  Dataset.data d !! i
    = Some (from_option Stat.commits 0 (last_row stats (Dataset.label d) w)).
Proof.
  intros Hchart Hd Hw. rewrite (dataset_inv stats chart d) by done.
  destruct (commit_chart_data_Some _ _ Hchart) as (g & _ & Hlabels & _).
  rewrite Hlabels in Hw. by rewrite list_lookup_fmap, Hw.
Qed.

(** Any sorted rearrangement of the weeks is the one [Js.sort] returns. *)
Lemma sort_canonical (xs ys : list string) :
  ys ≡ₚ xs → Sorted String.le ys → ys = Js.sort xs.
Proof.
  intros Hperm Hsorted. apply (Sorted_unique String.le); [done | |].
  - apply Sorted_merge_sort; apply _.
  - unfold Js.sort. by rewrite merge_sort_Permutation.
Qed.



Example bucketize_index_names_first :
  (λ chart, Dataset.label <$> datasets chart) <$> commit_chart_data
    [Stat.mk "bob" "W2" 5; Stat.mk "10" "W1" 1; Stat.mk "9" "W1" 2; Stat.mk "07" "W1" 2] =
  Some ["9"; "10"; "bob"; "07"].
Proof. vm_compute. reflexivity. Qed.

Example bucketize_duplicates_overwrite :
  (λ chart, Dataset.data <$> datasets chart) <$> commit_chart_data
    [Stat.mk "alice" "W1" 3; Stat.mk "alice" "W1" 5] = Some [[5]].
Proof. vm_compute. reflexivity. Qed.

Lemma group_stats_no_inherited stats g a :
  group_stats stats = Some g → Js.inherited a = true → Js.get g a = None.
Proof.
  intros (Hkeyed & _ & Hspec)%group_stats_spec Hin. specialize (Hspec a).
  destruct (Js.get g a) as [values|]; [|done].
  destruct Hspec as [(r & Hr & <-) _].
  by rewrite (keyed_elem_of stats r) in Hin.
Qed.

(** C2: a row whose author is named as a member of [Object.prototype]
    ([constructor], [toString], [__proto__], ...) gets no line.  Whatever
    rows came before it, [grouped] has no entry of that name, the guard
    finds [grouped[row.author]] truthy and makes none, and the row is
    written onto the inherited member instead of a line of the chart. *)
Theorem inherited_author_gets_no_entry
    (stats : list Stat.t) (grouped : Js.obj (gmap string Stat.t)) (row : Stat.t) :
  group_stats stats = Some grouped →
  Js.inherited (Stat.author row) = true →
  Js.get grouped (Stat.author row) = None
  ∧ group_entry grouped (Stat.author row) = grouped
  ∧ (Stat.author row ∉ (Js.entries (group_entry grouped (Stat.author row))).*1)
  ∧ group_row grouped row = None
  ∧ commit_chart_data (stats ++ [row]) = None.
Proof.
  intros Hg Hin.
  assert (Js.get grouped (Stat.author row) = None) as Hget
    by (by eapply group_stats_no_inherited).
  assert (group_entry grouped (Stat.author row) = grouped) as Hentry
    by (unfold group_entry; by rewrite has_inherited).
  split_and!; [done | done | | by apply group_row_inherited | ].
  - rewrite Hentry, entries_Permutation. by apply get_None.
  - unfold commit_chart_data. rewrite group_stats_snoc, Hg. simpl.
    by rewrite group_row_inherited.
Qed.

(** For rows none of whose authors is named as a member of
    [Object.prototype], the chart is made, its labels are the distinct
    weeks of [stats] in ascending order, there is one line per distinct
    author, and every line has one entry per week, which is the commit
    count of a row of that author and week, or 0 when [stats] has no such
    row. *)
Theorem commit_chart_data_aligned (stats : list Stat.t) :
  keyed stats →
  ∃ chart, commit_chart_data stats = Some chart
  ∧ (StronglySorted String.le (labels chart) ∧ NoDup (labels chart) ∧
     ∀ w, w ∈ labels chart ↔ ∃ r, r ∈ stats ∧ Stat.week r = w)
  ∧ (NoDup (Dataset.label <$> datasets chart) ∧
     ∀ a, a ∈ Dataset.label <$> datasets chart ↔
          ∃ r, r ∈ stats ∧ Stat.author r = a)
  ∧ (∀ d, d ∈ datasets chart →
       length (Dataset.data d) = length (labels chart) ∧
       ∀ i w, labels chart !! i = Some w →
         ∃ c, Dataset.data d !! i = Some c ∧
              ((∃ r, r ∈ stats ∧ Stat.author r = Dataset.label d ∧
                     Stat.week r = w ∧ c = Stat.commits r)
               ∨ ((∀ r, r ∈ stats → Stat.author r = Dataset.label d →
                        Stat.week r ≠ w) ∧ c = 0))).
Proof.
  intros [chart Hchart]%commit_chart_data_keyed. exists chart.
  destruct (commit_chart_data_Some _ _ Hchart) as (g & Hg & Hlabels & _).
  split; [done|]. split; [rewrite Hlabels; apply weeks_of_spec|].
  split; [by apply (dataset_authors stats)|].
  intros d Hd. split.
  - rewrite (dataset_inv stats chart d), Hlabels by done. by rewrite length_fmap.
  - intros i w Hw. rewrite (dataset_entry stats chart d i w) by done.
    eexists; split; [done|].
    destruct (last_row stats (Dataset.label d) w) as [r|] eqn:Hlast; simpl.
    + left. exists r. apply last_row_Some in Hlast. tauto.
    + right. split; [|done]. by apply last_row_None.
Qed.


(** *** Further properties of the chart *)

Lemma Set_from_Permutation `{EqDecision A} (xs ys : list A) :
  xs ≡ₚ ys → Js.Set_from xs ≡ₚ Js.Set_from ys.
Proof.
  intros Hperm.
  destruct (Set_from_spec xs) as [Hx Hinx], (Set_from_spec ys) as [Hy Hiny].
  apply NoDup_Permutation; [done | done |].
  intros x. by rewrite Hinx, Hiny, Hperm.
Qed.

Lemma Set_from_snoc `{EqDecision A} (xs : list A) (x : A) :
  Js.Set_from (xs ++ [x]) =
    if decide (x ∈ Js.Set_from xs) then Js.Set_from xs else Js.Set_from xs ++ [x].
Proof. unfold Js.Set_from. by rewrite foldl_snoc. Qed.

Lemma keyed_Permutation (stats stats' : list Stat.t) :
  stats ≡ₚ stats' → keyed stats → keyed stats'.
Proof.
  unfold keyed. intros Hperm Hkeyed%Is_true_true. apply Is_true_true.
  rewrite forallb_forall in *. intros r Hr. apply Hkeyed.
  apply list_elem_of_In. rewrite Hperm. by apply list_elem_of_In.
Qed.

(** The week axis of the chart does not depend on the order of the rows. *)
Theorem weeks_of_Permutation (stats stats' : list Stat.t) (chart : ChartData) :
  stats ≡ₚ stats' →
  commit_chart_data stats = Some chart →
  ∃ chart', commit_chart_data stats' = Some chart' ∧ labels chart' = labels chart.
Proof.
  intros Hperm Hchart.
  assert (keyed stats') as [chart' Hchart']%commit_chart_data_keyed.
  { apply (keyed_Permutation stats); [done|]. apply commit_chart_data_keyed. eauto. }
  exists chart'. split; [done|].
  apply commit_chart_data_Some in Hchart as (_ & _ & -> & _).
  apply commit_chart_data_Some in Hchart' as (_ & _ & -> & _).
  unfold weeks_of. apply sort_canonical.
  - unfold Js.sort. rewrite merge_sort_Permutation.
    apply Set_from_Permutation. by rewrite Hperm.
  - apply Sorted_merge_sort; apply _.
Qed.

Lemma group_stats_keys (stats : list Stat.t) g :
  group_stats stats = Some g → g.*1 = Js.Set_from (Stat.author <$> stats).
Proof.
  revert g. induction stats as [|r stats IH] using rev_ind; intros g' Hg'.
  - by injection Hg' as <-.
  - assert (Js.inherited (Stat.author r) = false) as Hkey.
    { apply group_stats_spec in Hg' as [Hkeyed _].
      apply (keyed_elem_of _ r Hkeyed), elem_of_app. right.
      by apply list_elem_of_singleton. }
    rewrite group_stats_snoc in Hg'.
    destruct (group_stats stats) as [g|]; [simpl in Hg' | done].
    rewrite group_row_keyed in Hg' by done. injection Hg' as <-.
    rewrite fmap_app. change (Stat.author <$> [r]) with [Stat.author r].
    rewrite Set_from_snoc, <- (IH g eq_refl).
    rewrite keys_set. destruct (Js.get g (Stat.author r)) as [values|] eqn:Hget.
    + rewrite Hget. rewrite decide_True; [done|].
      destruct (decide (Stat.author r ∈ g.*1)) as [|Hnot]; [done|].
      apply get_None in Hnot. congruence.
    + rewrite get_set, decide_True by done. rewrite keys_set, Hget.
      apply get_None in Hget. by rewrite decide_False.
Qed.

Lemma entries_without_index {V} (o : Js.obj V) :
  Forall (λ kv, Js.array_index kv.1 = None) o → Js.entries o = o.
Proof.
  intros Hall. unfold Js.entries.
  assert (filter (λ kv : string * V, is_Some (Js.array_index kv.1)) o = []) as ->.
  { induction Hall as [|kv o Hkv _ IH]; [done|].
    rewrite (filter_cons_False _ kv o); [done|]. rewrite Hkv. by intros [??]. }
  change (filter (λ kv : string * V, ¬ is_Some (Js.array_index kv.1)) o = o).
  induction Hall as [|kv o Hkv _ IH]; [done|].
  rewrite (filter_cons_True _ kv o); [by f_equal|]. rewrite Hkv. by intros [??].
Qed.

(** When no author name is an array index, the lines of the chart come in
    the order in which the authors first appear in the rows. *)
Theorem datasets_in_order_of_first_appearance
    (stats : list Stat.t) (chart : ChartData) :
  (∀ r, r ∈ stats → Js.array_index (Stat.author r) = None) →
  commit_chart_data stats = Some chart →
  Dataset.label <$> datasets chart = Js.Set_from (Stat.author <$> stats).
Proof.
  intros Hnames Hchart.
  destruct (commit_chart_data_Some _ _ Hchart) as (g & Hg & _).
  rewrite (dataset_labels stats chart g), <- (group_stats_keys stats g) by done.
  f_equal. apply entries_without_index.
  apply Forall_forall. intros [a values] Hin. simpl.
  assert (a ∈ g.*1) as Ha
    by (apply list_elem_of_fmap; by exists (a, values)).
  rewrite (group_stats_keys stats g) in Ha by done.
  apply Set_from_spec, list_elem_of_fmap in Ha as (r & -> & Hr). by apply Hnames.
Qed.


(** *** Reading the project ids *)

Lemma all_chars_rev_app P (s1 s2 : string) :
  all_chars P (String.rev_app s1 s2) = all_chars P s1 && all_chars P s2.
Proof.
  revert s2. induction s1 as [|c s1 IH]; intros s2; simpl; [done|].
  rewrite IH. simpl. by destruct (P c), (all_chars P s1).
Qed.

Lemma all_chars_rev P (s : string) : all_chars P (String.rev s) = all_chars P s.
Proof. unfold String.rev. rewrite all_chars_rev_app. simpl. apply andb_true_r. Qed.

Lemma rev_truthy (s : string) : Js.truthy (String.rev s) = Js.truthy s.
Proof.
  assert (∀ t, Js.truthy t = negb (all_chars (λ _, false) t)) as Htruthy
    by (by intros [|??]).
  by rewrite !Htruthy, all_chars_rev.
Qed.

Lemma trim_start_truthy (s : string) :
  Js.truthy (Js.trim_start s) = negb (all_chars Js.is_white_space s).
Proof.
  induction s as [|c s IH]; [done|]. cbn [Js.trim_start all_chars].
  by destruct (Js.is_white_space c).
Qed.

Lemma all_chars_trim_start (s : string) :
  all_chars Js.is_white_space (Js.trim_start s) = all_chars Js.is_white_space s.
Proof.
  induction s as [|c s IH]; [done|]. cbn [Js.trim_start all_chars].
  destruct (Js.is_white_space c) eqn:Hc; [done|].
  cbn [all_chars]. by rewrite Hc.
Qed.

(** A piece survives [trim] and [filter(Boolean)] unless it is blank. *)
Lemma trim_truthy (s : string) :
  Js.truthy (Js.trim s) = negb (all_chars Js.is_white_space s).
Proof.
  unfold Js.trim.
  by rewrite rev_truthy, trim_start_truthy, all_chars_rev, all_chars_trim_start.
Qed.

Lemma split_all_chars P (sep : Ascii.ascii) (s : string) :
  forallb (all_chars P) (Js.split sep s)
    = all_chars (λ c, P c || bool_decide (c = sep)) s.
Proof.
  induction s as [|c s IH]; simpl; [done|].
  destruct (decide (c = sep)) as [->|Hne].
  - rewrite bool_decide_eq_true_2 by done. simpl. rewrite IH.
    by rewrite orb_true_r.
  - rewrite bool_decide_eq_false_2, orb_false_r by done. rewrite <- IH.
    destruct (Js.split sep s) as [|w ws]; simpl.
    + by rewrite !andb_true_r.
    + by rewrite andb_assoc.
Qed.

(** [getProjectIds] yields no id exactly when the input holds nothing but
    commas and white space. *)
Theorem project_id_list_empty_iff (d : Dom) :
  project_id_list d = [] ↔ all_chars comma_or_white_space (project_ids d) = true.
Proof.
  unfold project_id_list, comma_or_white_space.
  rewrite <- (split_all_chars Js.is_white_space).
  induction (Js.split "," (project_ids d)) as [|piece pieces IH]; [done|].
  rewrite fmap_cons. simpl forallb.
  destruct (all_chars Js.is_white_space piece) eqn:Hblank.
  - rewrite (filter_cons_False _ (Js.trim piece));
      [apply IH | rewrite trim_truthy, Hblank; exact id].
  - rewrite (filter_cons_True _ (Js.trim piece));
      [by rewrite fmap_cons | rewrite trim_truthy, Hblank; exact I].
Qed.

(** ** The properties at concrete inputs

    The issues of these inputs hold no markup in their fields, but for
    [ticked_title]: the parser adds no box to their rows, [no_markup]. *)

(** C1, as stated, fails: [refreshIssues] does not merge.  A cached issue
    annotated with category "bug" and note "x" comes back from a refresh
    that reports the same id with empty annotations as the incoming record,
    annotations lost, where the reconciler of the specification keeps them. *)
Lemma refreshIssues_overwrites_annotations :
  issues (state (exec (refreshIssues no_markup (Ok (Data.mk [upstream] [])))
                   loaded_page))
    = [upstream]
  ∧ spec_mergeIncremental (issues (state loaded_page)) [upstream] = [annotated]
  ∧ Issue.category upstream ≠ Issue.category annotated.
Proof. split_and!; [by vm_compute | by vm_compute | done]. Qed.

Lemma refreshIssues_replaces_cache_witness :
  project_id_list (document loaded_page) ≠ [] ∧
  issues (state (exec (refreshIssues no_markup (Ok (Data.mk [upstream] [])))
                   loaded_page))
    = [upstream].
Proof.
  split; [by vm_compute|].
  apply (refreshIssues_replaces_cache no_markup loaded_page (Data.mk [upstream] [])).
  by vm_compute.
Defined.

(** C3, as stated, fails: an issue whose assignee is present but empty is
    shown under the quick filter "Unassigned", although its assignee field
    is not absent and differs from the filter value. *)
Lemma quick_filter_takes_empty_assignee_as_unassigned :
  selectedAssignee filtered_by_unassigned = Some "Unassigned" ∧
  Issue.assignee unassigned_empty = Some "" ∧
  filteredIssues filtered_by_unassigned = [unassigned_empty] ∧
  filter (λ issue, default "Unassigned" (Issue.assignee issue) = "Unassigned")
    (issues filtered_by_unassigned) = [].
Proof. split_and!; by vm_compute. Qed.

Lemma filteredIssues_by_assignee_witness :
  (selectedAssignee filtered_by_lee = Some "lee" ∧ "lee" ≠ "" ∧
   filteredIssues filtered_by_lee =
     filter (λ issue,
               match Issue.assignee issue with
               | None | Some "" => "Unassigned"
               | Some a => a
               end = "lee") (issues filtered_by_lee))
  ∧ (selectedAssignee initial_state = None ∧
     filteredIssues initial_state = issues initial_state).
Proof.
  split.
  - split_and!; [reflexivity | discriminate | ].
    apply (proj1 (filteredIssues_by_assignee no_markup filtered_by_lee) "lee");
      [reflexivity | discriminate].
  - split; [reflexivity | ].
    apply (proj1 (proj2 (filteredIssues_by_assignee no_markup initial_state))).
    reflexivity.
Defined.

(** The name "constructor" is selected on a page that has been shown a
    reply listing it, the next reply lists only "lee", and the dashboard
    keeps the selection. *)
Lemma renderDashboard_keeps_inherited_name_witness :
  reachable no_markup (inherited_selection no_markup) ∧
  selectedAssignee (state (inherited_selection no_markup)) = Some "constructor" ∧
  (Js.entries (assigneeSummary (state (inherited_selection no_markup)))).*1
    = ["lee"] ∧
  selectedAssignee (state (exec renderDashboard (inherited_selection no_markup)))
    = Some "constructor".
Proof.
  split_and!; [apply inherited_selection_reachable | by vm_compute
               | by vm_compute | ].
  apply (renderDashboard_keeps_inherited_name (inherited_selection no_markup));
    by vm_compute.
Defined.


Lemma closeSelectedIssues_empty_selection_witness :
  checked_ids (blank_page "10") = [] ∧
  exec (closeSelectedIssues no_markup (Ok ()) NotOk)
    {| state := initial_state; document := blank_page "10"; log := [] |}
  = {| state := initial_state; document := blank_page "10";
       log := [Toast "선택된 이슈가 없습니다"] |}.
Proof.
  split; [reflexivity|].
  apply (closeSelectedIssues_empty_selection no_markup
           {| state := initial_state; document := blank_page "10"; log := [] |}).
  reflexivity.
Defined.

(** C6, as stated, fails in its success half: the selection is cleared
    only by the re-rendering that follows a successful re-fetch.  Here the
    bulk close succeeds, the re-fetch does not, and the box of issue 1
    stays checked. *)
Lemma closeSelectedIssues_keeps_selection_when_refetch_fails :
  checked_ids (document loaded_page) = [Js.Number "1"] ∧
  checked_ids (document (exec (closeSelectedIssues no_markup (Ok ()) NotOk)
                           loaded_page)) = [Js.Number "1"].
Proof. split; by vm_compute. Qed.

Lemma closeSelectedIssues_outcomes_witness :
  checked_ids (document loaded_page) ≠ [] ∧
  project_id_list (document loaded_page) ≠ [] ∧
  exec (closeSelectedIssues no_markup NotOk NotOk) loaded_page
    = with_log loaded_page [Fetch (the_bulk_close (document loaded_page));
                            Toast "이슈 close 실패"] ∧
  checked_ids (document (exec (closeSelectedIssues no_markup (Ok ())
                                 (Ok summary_with_lee)) loaded_page)) = [].
Proof.
  assert (checked_ids (document loaded_page) ≠ []) as Hsel by (by vm_compute).
  assert (project_id_list (document loaded_page) ≠ []) as Hids by (by vm_compute).
  split_and!; [done | done | | ].
  - apply (closeSelectedIssues_outcomes no_markup loaded_page NotOk Hsel).
  - destruct (closeSelectedIssues_outcomes no_markup loaded_page
                (Ok summary_with_lee) Hsel) as (_ & _ & Hok).
    apply (Hok Hids summary_with_lee eq_refl). reflexivity.
Defined.

(** C7, as stated, fails for one field: [getProjectIds] has overwritten
    [state.projectIds] before the request leaves, so the state after a
    failed fetch is not the state before it. *)
Lemma failed_fetch_has_written_projectIds :
  projectIds (state first_visit) = [] ∧
  projectIds (state (exec (fetchIssues no_markup false NotOk) first_visit))
    = [Js.Number "10"] ∧
  state (exec (fetchIssues no_markup false NotOk) first_visit) ≠ state first_visit.
Proof. split_and!; by vm_compute. Qed.

(** C8, as stated, fails for the commit statistics: with no project id
    [loadCommitStats] returns without a toast. *)
Lemma loadCommitStats_without_ids_is_silent :
  project_id_list (document nothing_entered) = [] ∧
  log (exec (loadCommitStats NotOk) nothing_entered) = [].
Proof. split; by vm_compute. Qed.

Lemma empty_project_ids_not_attempted_witness :
  project_id_list (document nothing_entered) = [] ∧
  log (exec (fetchIssues no_markup true NotOk) nothing_entered)
    = [Toast "프로젝트 ID를 입력하세요"].
Proof.
  assert (project_id_list (document nothing_entered) = []) as Hnil by (by vm_compute).
  split; [done|].
  destruct (empty_project_ids_not_attempted no_markup nothing_entered Hnil)
    as (_ & Hfetch & _).
  by rewrite Hfetch.
Defined.

(** A reply brings [ticked_title]; when the table has been rendered, the
    box of its title is checked, and a bulk close sends its id, 99, which
    is the id of no issue shown. *)
Lemma rendered_table_keeps_markup_boxes_witness :
  ticked_title ∈ filteredIssues (state (exec (store_reply reply_with_markup) first_visit)) ∧
  Js.Number "99"
    ∈ checked_ids (document (exec (renderIssues title_markup)
                               (exec (store_reply reply_with_markup) first_visit))) ∧
  checked_ids (document (exec (fetchIssues title_markup false (Ok reply_with_markup))
                           first_visit)) = [Js.Number "99"].
Proof.
  assert (ticked_title
            ∈ filteredIssues (state (exec (store_reply reply_with_markup) first_visit)))
    as Hshown by (vm_compute; constructor).
  split_and!; [done | | by vm_compute].
  apply (proj2 (proj2 (rendered_table_keeps_markup_boxes title_markup
                         (exec (store_reply reply_with_markup) first_visit)))
           ticked_title {| box_id := Js.Number "99"; box_checked := true |} Hshown);
    [vm_compute; constructor | reflexivity].
Defined.

Lemma rendered_table_has_no_selection_witness :
  project_id_list (document loaded_page) ≠ [] ∧
  checked_ids (document loaded_page) = [Js.Number "1"] ∧
  checked_ids (document (exec (fetchIssues no_markup true (Ok summary_with_lee))
                           loaded_page)) = [].
Proof.
  assert (project_id_list (document loaded_page) ≠ []) as Hids by (by vm_compute).
  split_and!; [done | by vm_compute | ].
  destruct (rendered_table_has_no_selection no_markup loaded_page) as [_ Hfetch].
  destruct (Hfetch Hids summary_with_lee) as [Hf _]; [done|].
  apply (Hf true).
Defined.

(** The row of the author "constructor" comes after a row of "bob": the
    guard makes no entry for it, and the chart has no line
    "constructor". *)
Lemma inherited_author_gets_no_entry_witness :
  group_stats [Stat.mk "bob" "W1" 1] = Some [("bob", {["W1" := Stat.mk "bob" "W1" 1]})] ∧
  Js.inherited "constructor" = true ∧
  group_entry [("bob", {["W1" := Stat.mk "bob" "W1" 1]})] "constructor"
    = [("bob", {["W1" := Stat.mk "bob" "W1" 1]})].
Proof.
  assert (group_stats [Stat.mk "bob" "W1" 1]
            = Some [("bob", {["W1" := Stat.mk "bob" "W1" 1]})]) as Hg
    by reflexivity.
  split_and!; [done | reflexivity | ].
  apply (inherited_author_gets_no_entry [Stat.mk "bob" "W1" 1] _
           (Stat.mk "constructor" "W1" 3) Hg eq_refl).
Defined.

Lemma commit_chart_data_aligned_witness :
  keyed sample_stats ∧
  ∃ chart, commit_chart_data sample_stats = Some chart ∧
           Dataset.label <$> datasets chart ≡ₚ ["bob"; "alice"].
Proof.
  assert (keyed sample_stats) as Hkeyed by exact I.
  split; [done|].
  destruct (commit_chart_data_aligned sample_stats Hkeyed)
    as (chart & Hchart & _ & [Hnd Hauthors] & _).
  exists chart. split; [done|].
  apply NoDup_Permutation; [done | | ].
  { apply NoDup_cons_2; [by intros ?%list_elem_of_singleton | apply NoDup_singleton]. }
  intros a. rewrite Hauthors. split.
  - intros (r & Hr & <-). revert Hr. unfold sample_stats.
    rewrite !elem_of_cons, elem_of_nil.
    intros [->|[->|[]]]; simpl; auto.
  - rewrite !elem_of_cons, elem_of_nil. intros [->|[->|[]]].
    + exists (Stat.mk "bob" "W2" 5). split; [|done].
      apply list_elem_of_In; simpl; auto.
    + exists (Stat.mk "alice" "W1" 3). split; [|done].
      apply list_elem_of_In; simpl; auto.
Defined.


(** ** The further properties at concrete inputs *)

Lemma weeks_of_Permutation_witness :
  [Stat.mk "bob" "W2" 5; Stat.mk "alice" "W1" 3] ≡ₚ sample_stats ∧
  ∃ chart', commit_chart_data sample_stats = Some chart' ∧
            labels chart' = ["W1"; "W2"].
Proof.
  assert ([Stat.mk "bob" "W2" 5; Stat.mk "alice" "W1" 3] ≡ₚ sample_stats) as Hperm
    by apply perm_swap.
  split; [done|].
  apply (weeks_of_Permutation [Stat.mk "bob" "W2" 5; Stat.mk "alice" "W1" 3]
           sample_stats
           {| labels := ["W1"; "W2"];
              datasets := [Dataset.mk "bob" [0; 5] "#5b63ff";
                           Dataset.mk "alice" [3; 0] "#50a5f1"] |} Hperm).
  by vm_compute.
Defined.

Lemma datasets_in_order_of_first_appearance_witness :
  (∀ r, r ∈ [Stat.mk "bob" "W2" 5; Stat.mk "alice" "W1" 3; Stat.mk "bob" "W1" 1]
        → Js.array_index (Stat.author r) = None) ∧
  Dataset.label <$>
    [Dataset.mk "bob" [1; 5] "#5b63ff"; Dataset.mk "alice" [3; 0] "#50a5f1"]
    = Js.Set_from ["bob"; "alice"; "bob"].
Proof.
  assert (∀ r, r ∈ [Stat.mk "bob" "W2" 5; Stat.mk "alice" "W1" 3; Stat.mk "bob" "W1" 1]
               → Js.array_index (Stat.author r) = None) as Hnames.
  { intros r Hr. repeat (apply elem_of_cons in Hr as [->|Hr]; [reflexivity|]).
    by apply elem_of_nil in Hr. }
  split; [done|].
  apply (datasets_in_order_of_first_appearance _
           {| labels := ["W1"; "W2"];
              datasets := [Dataset.mk "bob" [1; 5] "#5b63ff";
                           Dataset.mk "alice" [3; 0] "#50a5f1"] |} Hnames).
  by vm_compute.
Defined.


Lemma project_id_list_empty_iff_witness :
  all_chars comma_or_white_space (project_ids (document nothing_entered)) = true ∧
  project_id_list (document nothing_entered) = [].
Proof.
  split; [reflexivity|].
  apply (project_id_list_empty_iff (document nothing_entered)). reflexivity.
Defined.

Lemma fetched_table_uses_previous_filter_witness :
  project_id_list (document (lee_selected no_markup)) ≠ [] ∧
  selectedAssignee (state (lee_selected no_markup)) = Some "lee" ∧
  issue_table (document (exec (fetchIssues no_markup false (Ok only_unassigned))
                           (lee_selected no_markup))) = [] ∧
  selectedAssignee (state (exec (fetchIssues no_markup false (Ok only_unassigned))
                             (lee_selected no_markup))) = None ∧
  issues (state (exec (fetchIssues no_markup false (Ok only_unassigned))
                   (lee_selected no_markup)))
    = [unassigned_empty].
Proof.
  assert (project_id_list (document (lee_selected no_markup)) ≠ []) as Hids
    by (by vm_compute).
  destruct (fetched_table_uses_previous_filter no_markup (lee_selected no_markup)
              only_unassigned Hids) as [Hfetch _].
  destruct (Hfetch false) as [Htable Hsel].
  split_and!; [done | by vm_compute | | | by vm_compute].
  - by apply fmap_nil_inv in Htable.
  - by rewrite Hsel.
Defined.

Lemma renderDashboard_chart_mirrors_summary_witness :
  NoDup (assigneeSummary (state (lee_selected no_markup))).*1 ∧
  assigneeChart (state (exec renderDashboard (lee_selected no_markup)))
    = Some {| bar_labels := ["lee"]; bar_data := [1] |}.
Proof.
  assert (NoDup (assigneeSummary (state (lee_selected no_markup))).*1) as Hnd
    by (vm_compute; apply NoDup_singleton).
  split; [done|].
  pose proof (renderDashboard_chart_mirrors_summary (lee_selected no_markup) Hnd)
    as Hbars.
  destruct (assigneeChart (state (exec renderDashboard (lee_selected no_markup))))
    as [[ls ds]|]; [|by vm_compute in Hbars].
  destruct Hbars as (_ & Hl & Hd). simpl in Hl, Hd. by rewrite Hl, Hd.
Defined.

Lemma blank_filter_is_plain_fetch_witness :
  no_criteria (document loaded_page) ∧
  exec (fetchIssues no_markup true (Ok only_unassigned)) loaded_page
    = exec (fetchIssues no_markup false (Ok only_unassigned)) loaded_page.
Proof.
  assert (no_criteria (document loaded_page)) as Hblank
    by (by repeat split).
  split; [done|]. by apply blank_filter_is_plain_fetch.
Defined.

Lemma exportIssues_query_witness :
  project_id_list (document loaded_page) ≠ [] ∧
  project_id_list (document nothing_entered) = [] ∧
  exec (fetchIssues no_markup true NotOk) loaded_page
    = with_log (exec getProjectIds loaded_page)
        [Fetch (the_issues_request (exportIssues loaded_page).1);
         Toast "이슈 조회 실패"] ∧
  params_get (exportIssues nothing_entered).1 "project_ids" = Some (Joined []).
Proof.
  assert (project_id_list (document loaded_page) ≠ []) as Hids by (by vm_compute).
  assert (project_id_list (document nothing_entered) = []) as Hnil by (by vm_compute).
  split_and!; [done | done | | ].
  - destruct (exportIssues_query no_markup loaded_page) as (_ & _ & Hfetch & _).
    exact (Hfetch Hids).
  - destruct (exportIssues_query no_markup nothing_entered) as (_ & _ & _ & Hexport).
    exact (proj1 (Hexport Hnil)).
Defined.

Lemma syncRepos_outcomes_witness :
  project_id_list (blank_page "10, 20") ≠ [] ∧
  log (exec (syncRepos NotOk)
         {| state := initial_state; document := blank_page "10, 20"; log := [] |})
  = [Fetch {| method := "POST"; url := "/api/repos";
              query := [("project_ids", Single (Js.Number "10"));
                        ("project_ids", Single (Js.Number "20"))];
              body := NoBody |};
     Toast "레포지토리 동기화 실패"].
Proof.
  assert (project_id_list (blank_page "10, 20") ≠ []) as Hids by (by vm_compute).
  split; [done|].
  destruct (syncRepos_outcomes
    {| state := initial_state; document := blank_page "10, 20"; log := [] |} Hids)
    as [_ Hfail].
  rewrite Hfail. reflexivity.
Defined.


Lemma selectAllChange_selects_shown_witness :
  (∀ issue, issue ∈ [unassigned_empty; annotated] → no_markup issue = []) ∧
  checked_ids (document (exec (selectAllChange true) (exec (renderIssues no_markup)
    {| state := filtered_by_lee; document := blank_page "10"; log := [] |})))
  = [Js.Number "1"].
Proof.
  assert (∀ issue, issue ∈ [unassigned_empty; annotated] → no_markup issue = [])
    as Hplain by done.
  split; [done|].
  destruct (selectAllChange_selects_shown no_markup
    {| state := filtered_by_lee; document := blank_page "10"; log := [] |} NotOk
    Hplain) as (Hall & _).
  rewrite Hall. reflexivity.
Defined.

Lemma sync_click_without_ids_witness :
  project_id_list (document nothing_entered) = [] ∧
  log (exec (loadCommitStats NotOk)
         (exec (fetchIssues no_markup false NotOk)
            (exec (syncRepos NotOk) nothing_entered)))
  = [Toast "프로젝트 ID를 입력하세요"; Toast "프로젝트 ID를 입력하세요"].
Proof.
  assert (project_id_list (document nothing_entered) = []) as Hnil by (by vm_compute).
  split; [done|].
  rewrite (sync_click_without_ids no_markup nothing_entered NotOk NotOk NotOk Hnil).
  reflexivity.
Defined.

Lemma selected_assignee_never_empty_witness :
  reachable no_markup (stale_selection no_markup) ∧
  (selectedAssignee (state (stale_selection no_markup)) = None ∨
   ∃ name, selectedAssignee (state (stale_selection no_markup)) = Some name ∧
           Js.truthy name = true).
Proof.
  split; [apply stale_selection_reachable|].
  apply (selected_assignee_never_empty no_markup (stale_selection no_markup)
           (stale_selection_reachable no_markup)).
Defined.
